(** * Cologne Transportation Navigator: the data-fusion core, verified

    A shallow embedding of the TypeScript sources

    - [services/geminiService.ts]  ([retryGeminiCall], [analyzeStreetConditions]),
    - [services/routingService.ts] ([calculateRoute]),
    - [App.tsx]                    ([handleLocationSelect], [handleModeSwitch],
                                    [handleClearRoute]),
    - [components/InfoPanel.tsx]   ([getDistance], [getBearing],
                                    [AnimatedRouteMarker]),

    and the properties the specification states about them.

    Conventions of the embedding:

    - a JavaScript object is a finite map from property names to values
      ([gmap string JValue]); the TypeScript interfaces are erased at run
      time, so what [JSON.parse] returns is an arbitrary [JValue];
    - a function that may throw returns a [Completion];
    - a remote operation is an oracle giving the outcome of its n-th call,
      and the calls and timer waits a function performs are recorded in a
      trace of [Event]s;
    - React state is an explicit record and every handler is a transition
      on it; a callback that closes over the state of a render takes that
      state beside the state its setters act on;
    - the numbers of the animator are real numbers: the model follows the
      arithmetic of the source without the rounding of IEEE doubles.  What
      depends on which cumulative distances are exactly equal is stated
      for every memo of cumulative distances, not only for the one of
      exact sums.

    What the embedding takes from the environment: what is thrown by the
    SDK, by [fetch] and by [JSON.parse] is an error object; the time stamps
    of [requestAnimationFrame] do not decrease; the marker of the animation
    is mounted when a frame is computed. *)

From Stdlib Require Import ZArith String List Reals Lra Lia.
From stdpp Require Import base option gmap strings list fin_maps pretty.

Local Open Scope string_scope.
Local Open Scope Z_scope.

(** ** JavaScript values *)

Module Js.

(** The values [JSON.parse] can produce, and [undefined].  Numbers are the
    integer ones, which is what the response schemas ask for
    ([Type.INTEGER]). *)
#[warnings="-register-all"]
Inductive JValue : Type :=
  | JUndefined
  | JNull
  | JBool (b : bool)
  | JNum (n : Z)
  | JStr (s : string)
  | JArr (l : list JValue)
  | JObj (m : gmap string JValue).

(** An [Error] object as the handlers inspect it: [error.status],
    [error.code] and [error.message], each possibly absent. *)
Record JsError : Type := mkError {
  status : option Z;
  code : option Z;
  message : option string
}.

(** [new Error(msg)] *)
Definition Error (msg : string) : JsError :=
  {| status := None; code := None; message := Some msg |}.

(** What a [throw] carries: an error object, or [undefined] when a variable
    that was never assigned is thrown. *)
Inductive Thrown : Type :=
  | ThrowUndefined
  | ThrowError (e : JsError).

(** How a call completes. *)
Inductive Completion (T : Type) : Type :=
  | Returned (t : T)
  | Threw (x : Thrown).
Arguments Returned {T} t.
Arguments Threw {T} x.

#[global] Instance Completion_ret : MRet Completion := fun _ t => Returned t.
#[global] Instance Completion_bind : MBind Completion := fun _ _ k c =>
  match c with
  | Returned t => k t
  | Threw x => Threw x
  end.

(** How an operation of the platform ends (a promise settles, [JSON.parse]
    returns or throws): with a value, or with an error object. *)
Inductive Outcome (T : Type) : Type :=
  | Resolved (t : T)
  | Rejected (e : JsError).
Arguments Resolved {T} t.
Arguments Rejected {T} e.

(** The completion of the expression that awaits or calls it. *)
Definition await {T : Type} (o : Outcome T) : Completion T :=
  match o with
  | Resolved t => Returned t
  | Rejected e => Threw (ThrowError e)
  end.

(** Truthiness, as [||], [!] and [? :] test it. *)
Definition truthy (v : JValue) : bool :=
  match v with
  | JUndefined | JNull => false
  | JBool b => b
  | JNum n => negb (n =? 0)
  | JStr s => negb (String.eqb s "")
  | JArr _ | JObj _ => true
  end.

(** Truthiness of an optional string property ([osmData?.width]). *)
Definition truthy_str (o : option string) : bool :=
  match o with
  | Some s => negb (String.eqb s "")
  | None => false
  end.

(** [a || b] on values. *)
Definition or_else (a b : JValue) : JValue := if truthy a then a else b.

(** The [TypeError] of a property read on [null] or [undefined]. *)
Definition TypeError_read (of_ : string) (k : string) : JsError :=
  Error ("Cannot read properties of " ++ of_ ++ " (reading '" ++ k ++ "')").

(** [v.k] for a property name [k] that is not an array index and not a
    method: the names read in the sources are [streetWidth],
    [congestionCurve] and [length]. *)
Definition prop (v : JValue) (k : string) : Completion JValue :=
  match v with
  | JUndefined => Threw (ThrowError (TypeError_read "undefined" k))
  | JNull => Threw (ThrowError (TypeError_read "null" k))
  | JObj m => Returned (default JUndefined (m !! k))
  | JArr l => Returned (if String.eqb k "length" then JNum (Z.of_nat (length l)) else JUndefined)
  | JStr s => Returned (if String.eqb k "length" then JNum (Z.of_nat (String.length s)) else JUndefined)
  | JBool _ | JNum _ => Returned JUndefined
  end.

(** [v?.k] *)
Definition opt_prop (v : JValue) (k : string) : Completion JValue :=
  match v with
  | JUndefined | JNull => Returned JUndefined
  | _ => prop v k
  end.

(** [a === n] for a number literal [n]. *)
Definition strict_eq_num (a : JValue) (n : Z) : bool :=
  match a with
  | JNum m => m =? n
  | _ => false
  end.

(** The characters of a string, one string each. *)
Fixpoint chars (s : string) : list string :=
  match s with
  | EmptyString => []
  | String c s' => String c EmptyString :: chars s'
  end.

(** The own enumerable properties an object spread [{...v}] copies:
    the properties of an object, the indexed elements of an array or of a
    string, nothing for the other values. *)
Definition own_props (v : JValue) : gmap string JValue :=
  match v with
  | JObj m => m
  | JArr l => list_to_map (imap (fun i x => (pretty i, x)) l)
  | JStr s => list_to_map (imap (fun i c => (pretty i, JStr c)) (chars s))
  | _ => ∅
  end.

(** [s.includes(sub)] *)
Definition includes (s sub : string) : bool :=
  match String.index 0 sub s with
  | Some _ => true
  | None => false
  end.

End Js.
Export Js.

(** ** services/geminiService.ts *)

Module Gemini.

(** What the service does to the outside world: the n-th call of the remote
    operation, and a timer wait of the given number of milliseconds. *)
Inductive Event : Type :=
  | EvCall (attempt : nat)
  | EvSleep (ms : Z).

(** [error.status === 429 || error.code === 429 ||
     error.message?.includes('429') || error.message?.includes('quota') ||
     error.message?.includes('RESOURCE_EXHAUSTED')] *)
Definition isRateLimit (e : JsError) : bool :=
  match status e with Some s => s =? 429 | None => false end
  || match code e with Some c => c =? 429 | None => false end
  || match message e with Some m => includes m "429" | None => false end
  || match message e with Some m => includes m "quota" | None => false end
  || match message e with Some m => includes m "RESOURCE_EXHAUSTED" | None => false end.

Section Retry.
Context {T : Type}.
(** [operation k] is how the k-th invocation (from 0) of the wrapped
    operation settles. *)
Variable operation : nat -> Outcome T.
Variable maxRetries : Z.
Variable baseDelay : Z.

(** The [for (let attempt = 0; attempt <= maxRetries; attempt++)] loop of
    [retryGeminiCall], entered at [attempt] with [lastError].  [fuel]
    bounds the iterations still to run. *)
Fixpoint retry_loop (fuel : nat) (attempt : nat) (lastError : Thrown)
  : list Event * Completion T :=
  match fuel with
  | O => ([], Threw lastError)
  | S fuel' =>
    if Z.of_nat attempt <=? maxRetries then
      match operation attempt with
      | Resolved t => ([EvCall attempt], Returned t)
      | Rejected error =>
        if isRateLimit error && (Z.of_nat attempt <? maxRetries) then
          let delay := baseDelay * 2 ^ Z.of_nat attempt in
          let (tr, r) := retry_loop fuel' (S attempt) (ThrowError error) in
          (EvCall attempt :: EvSleep delay :: tr, r)
        else ([EvCall attempt], Threw (ThrowError error))
      end
    else ([], Threw lastError)
  end.

(** [retryGeminiCall(operation, maxRetries, baseDelay)]: the loop runs
    for [attempt = 0 .. maxRetries], that is [maxRetries + 1] times at
    most, and [throw lastError] follows it. *)
Definition retryGeminiCall : list Event * Completion T :=
  retry_loop (Z.to_nat (maxRetries + 1)) 0 ThrowUndefined.
End Retry.

(** The number of invocations of the operation in a trace. *)
Definition is_call (ev : Event) : bool :=
  match ev with
  | EvCall _ => true
  | EvSleep _ => false
  end.

Definition calls (tr : list Event) : nat := length (List.filter is_call tr).

(** Every invocation before the [i]-th was rejected and classified as a
    rate limit, so that the loop reaches attempt [i]. *)
Definition limited_before {T : Type} (operation : nat -> Outcome T) (i : nat) : Prop :=
  forall j, (j < i)%nat -> exists e, operation j = Rejected e /\ isRateLimit e = true.

(** The trace of [k] rate-limited attempts from attempt [a] on: each call
    followed by its wait of [baseDelay * 2^attempt]. *)
Fixpoint backoff (baseDelay : Z) (a k : nat) : list Event :=
  match k with
  | O => []
  | S k' => EvCall a :: EvSleep (baseDelay * 2 ^ Z.of_nat a) :: backoff baseDelay (S a) k'
  end.

(** *** types.ts *)

Inductive VehicleType : Type :=
  | CAR
  | LKW_LIGHT
  | LKW_HEAVY.

Record OsmStreetDetails : Type := {
  name : string;
  type : string;
  width : option string;
  lanes : option string;
  maxspeed : option string;
  surface : option string
}.

(** [GenerateContentResponse], as far as it is read: [response.text]. *)
Record GenerateContentResponse : Type := {
  text : option string
}.

(** An optional string property as a value: absent is [undefined]. *)
Definition opt_str (o : option string) : JValue :=
  match o with
  | Some s => JStr s
  | None => JUndefined
  end.

(** *** analyzeStreetConditions *)

(** The "Verified Physical Data" block of the prompt: the name and highway
    type, [osmData.width ? osmData.width + ' meters' : 'Not specified'] and
    [osmData.lanes ? osmData.lanes : 'Not specified']. *)
Record PhysicalContext : Type := {
  pc_name : string;
  pc_type : string;
  pc_width : string;
  pc_lanes : string
}.

Definition physicalContext (osmData : option OsmStreetDetails) : option PhysicalContext :=
  match osmData with
  | Some o => Some
      {| pc_name := name o;
         pc_type := type o;
         pc_width := if truthy_str (width o) then default "" (width o) ++ " meters" else "Not specified";
         pc_lanes := if truthy_str (lanes o) then default "" (lanes o) else "Not specified" |}
  | None => None
  end.

(** Everything the prompt text is built from.  The generator sees nothing
    else, and the instruction on widths below 3.5m is part of the text
    only. *)
Record StreetPrompt : Type := {
  pr_vehicleType : VehicleType;
  pr_lat : R;
  pr_lng : R;
  pr_physicalContext : option PhysicalContext
}.

Definition num_array (l : list Z) : JValue := JArr (JNum <$> l).

(** The curve substituted for a generated one of the wrong length. *)
Definition defaultCurve : JValue := num_array [2;2;3;7;9;6;5;8;9;5;3;2].
(** The curve of the rate-limited fallback. *)
Definition flatCurve : JValue := num_array [2;2;2;5;5;5;5;5;5;5;2;2].
(** The curve of the failure fallback. *)
Definition zeroCurve : JValue := num_array [0;0;0;0;0;0;0;0;0;0;0;0].

Section Analyze.
(** [ai.models.generateContent] for a prompt: how its k-th call settles. *)
Variable generateContent : StreetPrompt -> nat -> Outcome GenerateContentResponse.
(** [JSON.parse] *)
Variable JSON_parse : string -> Outcome JValue.
(** [new Date().toLocaleTimeString()] *)
Variable now : string.

(** [osmData?.width ? `${osmData.width}m` : orelse] *)
Definition osmWidth (osmData : option OsmStreetDetails) (orelse : JValue) : JValue :=
  match osmData ≫= width with
  | Some w => if negb (String.eqb w "") then JStr (w ++ "m") else orelse
  | None => orelse
  end.

(** [osmData?.name || orelse] *)
Definition osmName (osmData : option OsmStreetDetails) (orelse : string) : JValue :=
  match osmData with
  | Some o => if negb (String.eqb (name o) "") then JStr (name o) else JStr orelse
  | None => JStr orelse
  end.

(** The object literal of the success path:
    [{...data, streetWidth: .., lanes: .., congestionCurve: .., lastUpdated: ..}]. *)
Definition mergeAnalysis (data : JValue) (osmData : option OsmStreetDetails)
  : Completion (gmap string JValue) :=
  let spread := own_props data in
  streetWidth ← prop data "streetWidth";
  congestionCurve ← prop data "congestionCurve";
  len ← opt_prop congestionCurve "length";
  mret (<["lastUpdated" := JStr now]>
        (<["congestionCurve" := if strict_eq_num len 12 then congestionCurve else defaultCurve]>
         (<["lanes" := opt_str (osmData ≫= lanes)]>
          (<["streetWidth" := or_else streetWidth (osmWidth osmData JUndefined)]>
           spread)))).

(** The object returned when the failure is a rate limit. *)
Definition degradedAnalysis (osmData : option OsmStreetDetails) : gmap string JValue :=
  <["streetName" := osmName osmData "Service Busy (High Traffic)"]>
  (<["isTruckSuitable" := JBool true]>
  (<["restrictionReason" := JStr "AI Analysis unavailable. Check local signs."]>
  (<["streetWidth" := osmWidth osmData (JStr "Unknown")]>
  (<["lanes" := opt_str (osmData ≫= lanes)]>
  (<["congestionScore" := JNum 5]>
  (<["congestionCurve" := flatCurve]>
  (<["rushHourTimes" := JArr [JStr "Unknown"]]>
  (<["description" := JStr "The AI analysis service is currently experiencing high demand. Please rely on standard physical street data and local signage. This street has not been fully verified for logistical constraints at this moment."]>
  (<["alternativeRoutes" := JArr []]>
  (<["lastUpdated" := JStr now]> ∅)))))))))).

(** The object returned on any other failure. *)
Definition failedAnalysis (osmData : option OsmStreetDetails) : gmap string JValue :=
  <["streetName" := osmName osmData "Analysis Failed"]>
  (<["isTruckSuitable" := JBool false]>
  (<["congestionScore" := JNum 0]>
  (<["congestionCurve" := zeroCurve]>
  (<["rushHourTimes" := JArr []]>
  (<["description" := JStr "Could not retrieve data from AI service. Please check API key configuration."]>
  (<["alternativeRoutes" := JArr []]>
  (<["lastUpdated" := JStr now]> ∅))))))).

(** [const text = response.text; if (!text) throw new Error(..)] *)
Definition responseText (response : GenerateContentResponse) : Completion string :=
  match text response with
  | Some t => if negb (String.eqb t "") then Returned t
              else Threw (ThrowError (Error "No response from Gemini"))
  | None => Threw (ThrowError (Error "No response from Gemini"))
  end.

(** The [catch (error: any)] block. *)
Definition analysisFallback (osmData : option OsmStreetDetails) (error : Thrown)
  : Completion (gmap string JValue) :=
  match error with
  | ThrowUndefined => Threw (ThrowError (TypeError_read "undefined" "status"))
  | ThrowError e =>
    if isRateLimit e then Returned (degradedAnalysis osmData)
    else Returned (failedAnalysis osmData)
  end.

Definition streetPrompt (lat lng : R) (vehicleType : VehicleType)
    (osmData : option OsmStreetDetails) : StreetPrompt :=
  {| pr_vehicleType := vehicleType; pr_lat := lat; pr_lng := lng;
     pr_physicalContext := physicalContext osmData |}.

(** [analyzeStreetConditions(lat, lng, vehicleType, osmData)]: the events
    performed and the completion of the returned promise. *)
Definition analyzeStreetConditions (lat lng : R) (vehicleType : VehicleType)
    (osmData : option OsmStreetDetails)
  : list Event * Completion (gmap string JValue) :=
  let prompt := streetPrompt lat lng vehicleType osmData in
  let (tr, call) := retryGeminiCall (generateContent prompt) 4 2500 in
  let body :=
    response ← call;
    text ← responseText response;
    data ← await (JSON_parse text);
    mergeAnalysis data osmData in
  (tr, match body with
       | Returned analysis => Returned analysis
       | Threw error => analysisFallback osmData error
       end).
End Analyze.

(** The invariant the specification states for a [StreetAnalysis]: the
    [congestionCurve] is an array of exactly 12 integers, each in [0,10]. *)
Definition bucket_ok (v : JValue) : bool :=
  match v with
  | JNum n => (0 <=? n) && (n <=? 10)
  | _ => false
  end.

Definition curve_ok (v : JValue) : bool :=
  match v with
  | JArr l => (length l =? 12)%nat && forallb bucket_ok l
  | _ => false
  end.

Definition curve_in_spec (analysis : gmap string JValue) : bool :=
  match analysis !! "congestionCurve" with
  | Some v => curve_ok v
  | None => false
  end.

End Gemini.

(** ** services/routingService.ts *)

Module Routing.

Record Coordinates : Type := {
  lat : R;
  lng : R
}.

(** The OSRM response body, as [calculateRoute] reads it. *)
Record Step : Type := { step_name : option string }.
Record Leg : Type := { steps : list Step }.
Record Route : Type := {
  geometry_coordinates : list (R * R);
  legs : list Leg;
  route_duration : R;
  route_distance : R
}.
Record OsrmData : Type := {
  osrm_code : string;
  routes : option (list Route)
}.

(** The [Response] of [fetch]: [ok], [statusText] and the settled
    [json()]. *)
Record Response : Type := {
  ok : bool;
  statusText : string;
  json : Outcome OsrmData
}.

Record RouteResult : Type := {
  geometry : list (R * R);
  coordinates : list (R * R);
  streetNames : list string;
  duration : R;
  distance : R
}.

(** A routing request: the [lng,lat;lng,lat;..] of the URL. *)
Inductive Event : Type :=
  | EvFetch (coordString : list (R * R)).

(** [streetNames.add(x)] on a [Set] kept in insertion order. *)
Definition Set_add (s : list string) (x : string) : list string :=
  if decide (x ∈ s) then s else (s ++ [x])%list.

(** The two nested [forEach] that collect the step names. *)
Definition collectStreetNames (r : Route) : list string :=
  foldl (fun acc leg =>
    foldl (fun acc step =>
      match step_name step with
      | Some n => if (0 <? String.length n)%nat then Set_add acc n else acc
      | None => acc
      end) acc (steps leg)) [] (legs r).

Section CalculateRoute.
(** [fetch(url)] for the request with the given coordinates. *)
Variable fetch : list (R * R) -> Outcome Response.

(** The body of the [try] once the response is there. *)
Definition readRoute (response : Response) : Completion RouteResult :=
  if negb (ok response) then
    Threw (ThrowError (Error ("Routing service error: " ++ statusText response)))
  else
    data ← await (json response);
    if negb (String.eqb (osrm_code data) "Ok")
       || match routes data with None => true | Some _ => false end
       || (length (default [] (routes data)) =? 0)%nat
    then Threw (ThrowError (Error "No route found."))
    else
      match default [] (routes data) with
      | route :: _ => Returned
          {| geometry := geometry_coordinates route;
             coordinates := map (fun coord => (coord.2, coord.1)) (geometry_coordinates route);
             streetNames := collectStreetNames route;
             duration := route_duration route;
             distance := route_distance route |}
      | [] => Threw (ThrowError (TypeError_read "undefined" "geometry"))
      end.

(** [calculateRoute(points)]: the requests issued and the completion.
    The [catch] logs and rethrows, so a failure of the [try] is the
    failure of the call. *)
Definition calculateRoute (points : list Coordinates)
  : list Event * Completion RouteResult :=
  if (length points <? 2)%nat then
    ([], Threw (ThrowError (Error "At least two points are required for a route.")))
  else
    let coordString := map (fun p => (lng p, lat p)) points in
    ([EvFetch coordString],
     match fetch coordString with
     | Rejected e => Threw (ThrowError e)
     | Resolved response => readRoute response
     end).
End CalculateRoute.

(** The failure classes of the specification, read off the message of the
    thrown error. *)
Inductive Failure : Type :=
  | InvalidInput
  | NoRouteFound
  | OtherFailure.

Definition classify (x : Thrown) : Failure :=
  match x with
  | ThrowError e =>
    match message e with
    | Some m =>
      if String.eqb m "At least two points are required for a route." then InvalidInput
      else if String.eqb m "No route found." then NoRouteFound
      else OtherFailure
    | None => OtherFailure
    end
  | ThrowUndefined => OtherFailure
  end.

End Routing.

(** ** App.tsx *)

Module App.
Import Routing.

Inductive Mode : Type :=
  | explore
  | route.

Inductive MarkerType : Type :=
  | hotspot
  | user_selected
  | route_point.

#[global] Instance MarkerType_eq_dec : EqDecision MarkerType.
Proof. solve_decision. Defined.

Record MapMarkerData : Type := {
  id : string;
  position : Coordinates;
  name : string;
  type : MarkerType;
  index : option nat
}.

Record LiveTrafficData : Type := {
  summary : string;
  lastUpdated : string;
  sources : list (string * string)
}.

Record WeatherData : Type := {
  temp : string;
  condition : string;
  impact : string;
  isSevere : bool
}.

(** The [useState] cells of the component. *)
Record AppState : Type := {
  selectedVehicle : Gemini.VehicleType;
  mode : Mode;
  (* explore mode *)
  analysis : option (gmap string JValue);
  highlightedSegments : list (list Coordinates);
  isHighlightSuitable : bool;
  (* route mode *)
  routePoints : list Coordinates;
  routeCoordinates : list (R * R);
  routeAnalysis : option JValue;
  routeStreetNames : list string;
  (* common *)
  loading : bool;
  liveTraffic : option LiveTrafficData;
  weather : option WeatherData;
  markers : list MapMarkerData;
  error : option string
}.

Definition setError (v : option string) (s : AppState) : AppState :=
  {| selectedVehicle := selectedVehicle s; mode := mode s; analysis := analysis s;
     highlightedSegments := highlightedSegments s; isHighlightSuitable := isHighlightSuitable s;
     routePoints := routePoints s; routeCoordinates := routeCoordinates s;
     routeAnalysis := routeAnalysis s; routeStreetNames := routeStreetNames s;
     loading := loading s; liveTraffic := liveTraffic s; weather := weather s;
     markers := markers s; error := v |}.

Definition setMode (v : Mode) (s : AppState) : AppState :=
  {| selectedVehicle := selectedVehicle s; mode := v; analysis := analysis s;
     highlightedSegments := highlightedSegments s; isHighlightSuitable := isHighlightSuitable s;
     routePoints := routePoints s; routeCoordinates := routeCoordinates s;
     routeAnalysis := routeAnalysis s; routeStreetNames := routeStreetNames s;
     loading := loading s; liveTraffic := liveTraffic s; weather := weather s;
     markers := markers s; error := error s |}.

Definition setAnalysis (v : option (gmap string JValue)) (s : AppState) : AppState :=
  {| selectedVehicle := selectedVehicle s; mode := mode s; analysis := v;
     highlightedSegments := highlightedSegments s; isHighlightSuitable := isHighlightSuitable s;
     routePoints := routePoints s; routeCoordinates := routeCoordinates s;
     routeAnalysis := routeAnalysis s; routeStreetNames := routeStreetNames s;
     loading := loading s; liveTraffic := liveTraffic s; weather := weather s;
     markers := markers s; error := error s |}.

Definition setHighlightedSegments (v : list (list Coordinates)) (s : AppState) : AppState :=
  {| selectedVehicle := selectedVehicle s; mode := mode s; analysis := analysis s;
     highlightedSegments := v; isHighlightSuitable := isHighlightSuitable s;
     routePoints := routePoints s; routeCoordinates := routeCoordinates s;
     routeAnalysis := routeAnalysis s; routeStreetNames := routeStreetNames s;
     loading := loading s; liveTraffic := liveTraffic s; weather := weather s;
     markers := markers s; error := error s |}.

Definition setRoutePoints (v : list Coordinates) (s : AppState) : AppState :=
  {| selectedVehicle := selectedVehicle s; mode := mode s; analysis := analysis s;
     highlightedSegments := highlightedSegments s; isHighlightSuitable := isHighlightSuitable s;
     routePoints := v; routeCoordinates := routeCoordinates s;
     routeAnalysis := routeAnalysis s; routeStreetNames := routeStreetNames s;
     loading := loading s; liveTraffic := liveTraffic s; weather := weather s;
     markers := markers s; error := error s |}.

Definition setRouteCoordinates (v : list (R * R)) (s : AppState) : AppState :=
  {| selectedVehicle := selectedVehicle s; mode := mode s; analysis := analysis s;
     highlightedSegments := highlightedSegments s; isHighlightSuitable := isHighlightSuitable s;
     routePoints := routePoints s; routeCoordinates := v;
     routeAnalysis := routeAnalysis s; routeStreetNames := routeStreetNames s;
     loading := loading s; liveTraffic := liveTraffic s; weather := weather s;
     markers := markers s; error := error s |}.

Definition setRouteAnalysis (v : option JValue) (s : AppState) : AppState :=
  {| selectedVehicle := selectedVehicle s; mode := mode s; analysis := analysis s;
     highlightedSegments := highlightedSegments s; isHighlightSuitable := isHighlightSuitable s;
     routePoints := routePoints s; routeCoordinates := routeCoordinates s;
     routeAnalysis := v; routeStreetNames := routeStreetNames s;
     loading := loading s; liveTraffic := liveTraffic s; weather := weather s;
     markers := markers s; error := error s |}.

Definition setRouteStreetNames (v : list string) (s : AppState) : AppState :=
  {| selectedVehicle := selectedVehicle s; mode := mode s; analysis := analysis s;
     highlightedSegments := highlightedSegments s; isHighlightSuitable := isHighlightSuitable s;
     routePoints := routePoints s; routeCoordinates := routeCoordinates s;
     routeAnalysis := routeAnalysis s; routeStreetNames := v;
     loading := loading s; liveTraffic := liveTraffic s; weather := weather s;
     markers := markers s; error := error s |}.

Definition setLiveTraffic (v : option LiveTrafficData) (s : AppState) : AppState :=
  {| selectedVehicle := selectedVehicle s; mode := mode s; analysis := analysis s;
     highlightedSegments := highlightedSegments s; isHighlightSuitable := isHighlightSuitable s;
     routePoints := routePoints s; routeCoordinates := routeCoordinates s;
     routeAnalysis := routeAnalysis s; routeStreetNames := routeStreetNames s;
     loading := loading s; liveTraffic := v; weather := weather s;
     markers := markers s; error := error s |}.

(** [setMarkers(f)] with an updater function; [setMarkers(v)] is
    [setMarkers (fun _ => v)]. *)
Definition setMarkers (f : list MapMarkerData -> list MapMarkerData) (s : AppState) : AppState :=
  {| selectedVehicle := selectedVehicle s; mode := mode s; analysis := analysis s;
     highlightedSegments := highlightedSegments s; isHighlightSuitable := isHighlightSuitable s;
     routePoints := routePoints s; routeCoordinates := routeCoordinates s;
     routeAnalysis := routeAnalysis s; routeStreetNames := routeStreetNames s;
     loading := loading s; liveTraffic := liveTraffic s; weather := weather s;
     markers := f (markers s); error := error s |}.

Section Handlers.
(** The explore branch of [handleLocationSelect], which awaits the remote
    services: taken as given, from the state after [setError(null)]. *)
Variable exploreSelect : AppState -> Coordinates -> AppState.
(** [Date.now()], printed. *)
Variable now : string.

(** [handleLocationSelect(coords)].  The callback reads [mode] and
    [routePoints] from the render that created it (the dependencies of
    [useCallback]): [captured] is the state of that render.  The setters
    act on [s], the state at the time of the call; the two are the same
    state unless the callback is an old one, as the one [handleSearch]
    holds on to across its [await]. *)
Definition handleLocationSelect (captured : AppState) (coords : Coordinates)
    (s : AppState) : AppState :=
  let s := setError None s in
  match mode captured with
  | explore => exploreSelect s coords
  | route =>
    if (10 <=? length (routePoints captured))%nat then
      setError (Some "Max 10 waypoints allowed.") s
    else
      let newPoint := coords in
      let updatedPoints := (routePoints captured ++ [newPoint])%list in
      let s := setRoutePoints updatedPoints s in
      let newMarker :=
        {| id := "route-" ++ now;
           position := coords;
           name := "Stop " ++ pretty (length updatedPoints);
           type := route_point;
           index := Some (length updatedPoints) |} in
      setMarkers (fun prev => (prev ++ [newMarker])%list) s
  end.

(** [handleClearRoute()] *)
Definition handleClearRoute (s : AppState) : AppState :=
  let s := setRoutePoints [] s in
  let s := setRouteCoordinates [] s in
  let s := setRouteStreetNames [] s in
  let s := setRouteAnalysis None s in
  let s := setLiveTraffic None s in
  let s := setMarkers (fun prev => filter (fun m => type m ≠ route_point) prev) s in
  setMarkers (fun _ => []) s.

(** [handleModeSwitch(newMode)] *)
Definition handleModeSwitch (newMode : Mode) (s : AppState) : AppState :=
  let s := setMode newMode s in
  let s := setError None s in
  let s := setHighlightedSegments [] s in
  match newMode with
  | explore =>
    let s := setRoutePoints [] s in
    let s := setRouteCoordinates [] s in
    setMarkers (fun _ => []) s
  | route =>
    let s := setAnalysis None s in
    let s := setLiveTraffic None s in
    setMarkers (fun _ => []) s
  end.
End Handlers.

End App.

(** ** components/InfoPanel.tsx: the route animation *)

Module Animator.
Local Open Scope R_scope.

Definition toRad (d : R) : R := d * PI / 180.
Definition toDeg (r : R) : R := r * 180 / PI.

(** [Math.atan2(y, x)]: the angle of the point [(x, y)], in (-PI, PI]. *)
Definition atan2 (y x : R) : R :=
  if Rlt_dec 0 x then atan (y / x)
  else if Rlt_dec x 0 then
    if Rle_dec 0 y then atan (y / x) + PI else atan (y / x) - PI
  else if Rlt_dec 0 y then PI / 2
  else if Rlt_dec y 0 then - (PI / 2)
  else 0.

(** The quotient of [x / d] truncated toward zero. *)
Definition Rtrunc (x : R) : Z :=
  if Rle_dec 0 x then Int_part x else (- Int_part (- x))%Z.

(** [x % d]: the remainder has the sign of the dividend. *)
Definition js_rem (x d : R) : R := x - d * IZR (Rtrunc (x / d)).

Definition getBearing (lat1 lng1 lat2 lng2 : R) : R :=
  let dLon := toRad (lng2 - lng1) in
  let y := sin dLon * cos (toRad lat2) in
  let x := cos (toRad lat1) * sin (toRad lat2)
           - sin (toRad lat1) * cos (toRad lat2) * cos dLon in
  let brng := toDeg (atan2 y x) in
  js_rem (brng + 360) 360.

Definition getDistance (lat1 lng1 lat2 lng2 : R) : R :=
  let R := 6371000 in
  let φ1 := toRad lat1 in
  let φ2 := toRad lat2 in
  let Δφ := toRad (lat2 - lat1) in
  let Δλ := toRad (lng2 - lng1) in
  let a := sin (Δφ / 2) * sin (Δφ / 2)
           + cos φ1 * cos φ2 * sin (Δλ / 2) * sin (Δλ / 2) in
  let c := 2 * atan2 (sqrt a) (sqrt (1 - a)) in
  R * c.

(** The memoised [{ totalDist, dists }]. *)
Record Segments : Type := {
  totalDist : R;
  dists : list R
}.

(** The [for] loop of the memo over the vertices still to visit:
    [totalDist += d; dists.push(totalDist)] for every consecutive pair. *)
Fixpoint segments_loop (route : list (R * R)) (totalDist : R) (dists : list R)
  : Segments :=
  match route with
  | p :: (q :: _) as rest =>
    let d := getDistance p.1 p.2 q.1 q.2 in
    segments_loop rest (totalDist + d) (dists ++ [totalDist + d])
  | _ => {| totalDist := totalDist; dists := dists |}
  end.

(** [segments]: [None] stands for the empty array returned for a route of
    fewer than 2 vertices, whose [totalDist] is [undefined]. *)
Definition segments (route : list (R * R)) : option Segments :=
  if (length route <? 2)%nat then None
  else Some (segments_loop route 0 [0]).

(** The guard of the effect: [!segments.totalDist || route.length < 2]
    leaves without starting the animation. *)
Definition playing (route : list (R * R)) : option Segments :=
  match segments route with
  | Some segs =>
    if Req_dec_T (totalDist segs) 0 then None
    else if (length route <? 2)%nat then None
    else Some segs
  | None => None
  end.

Definition DURATION : R := 10000.

(** The search loop: the first [i < dists.length - 1] with
    [currentDist >= dists[i] && currentDist < dists[i+1]]; [ds] is the rest
    of [dists] from position [i]. *)
Fixpoint find_segment (currentDist : R) (ds : list R) (i : nat) : option nat :=
  match ds with
  | d0 :: (d1 :: _) as rest =>
    if Rge_dec currentDist d0 then
      if Rlt_dec currentDist d1 then Some i
      else find_segment currentDist rest (S i)
    else find_segment currentDist rest (S i)
  | _ => None
  end.

(** [let index = 0; for (..) { if (..) { index = i; break; } }] *)
Definition segment_index (currentDist : R) (ds : list R) : nat :=
  default 0%nat (find_segment currentDist ds 0).

(** What a frame gives the marker: the position of [setLatLng] and the
    bearing of the icon. *)
Record Frame : Type := {
  frame_lat : R;
  frame_lng : R;
  frame_bearing : R
}.

(** [(elapsed % DURATION) / DURATION] *)
Definition progress_of (elapsed : R) : R := js_rem elapsed DURATION / DURATION.

(** The frame at a distance [currentDist] along the path: the part of
    [animate] from "Find segment" on.  [None] is the frame that leaves the
    marker alone ([p1 && p2] fails). *)
Definition frame_at (route : list (R * R)) (segs : Segments) (currentDist : R)
  : option Frame :=
  let index := segment_index currentDist (dists segs) in
  match dists segs !! index, dists segs !! S index, route !! index, route !! S index with
  | Some d0, Some d1, Some p1, Some p2 =>
    let segmentLen := d1 - d0 in
    let segmentProgress := (currentDist - d0) / segmentLen in
    Some {| frame_lat := p1.1 + (p2.1 - p1.1) * segmentProgress;
            frame_lng := p1.2 + (p2.2 - p1.2) * segmentProgress;
            frame_bearing := getBearing p1.1 p1.2 p2.1 p2.2 |}
  | _, _, _, _ => None
  end.

(** [animate(time)] on the value of [startTimeRef.current]: the new value
    of the ref and the frame. *)
Definition animate (route : list (R * R)) (segs : Segments)
    (startTimeRef : R) (time : R) : R * option Frame :=
  let startTimeRef := if Req_dec_T startTimeRef 0 then time else startTimeRef in
  let elapsed := time - startTimeRef in
  let progress := progress_of elapsed in
  let currentDist := progress * totalDist segs in
  (startTimeRef, frame_at route segs currentDist).

(** The running sums the memo pushes after [acc]: what [dists] holds
    behind its first element. *)
Fixpoint cumulative (route : list (R * R)) (acc : R) : list R :=
  match route with
  | p :: (q :: _) as rest =>
    let d := getDistance p.1 p.2 q.1 q.2 in
    (acc + d) :: cumulative rest (acc + d)
  | _ => []
  end.

(** A list of numbers that never decreases from one position to the
    next. *)
Definition ascending (ds : list R) : Prop :=
  forall i a b, ds !! i = Some a -> ds !! S i = Some b -> a <= b.

End Animator.

(** ** Sample inputs *)

Module Samples.
Import Gemini.

(** The error of a quota-exhausted call, and of an unreachable service. *)
Definition quotaError : JsError :=
  {| status := Some 429; code := None; message := Some "RESOURCE_EXHAUSTED" |}.
Definition networkError : JsError := Error "fetch failed".

(** An operation that is rate limited twice and then succeeds. *)
Definition busyTwice : nat -> Outcome unit :=
  fun k => if (k <? 2)%nat then Rejected quotaError else Resolved tt.

(** Generators: always rate limited, always unreachable, always answering
    with the given text. *)
Definition alwaysBusy : StreetPrompt -> nat -> Outcome GenerateContentResponse :=
  fun _ _ => Rejected quotaError.
Definition alwaysDown : StreetPrompt -> nat -> Outcome GenerateContentResponse :=
  fun _ _ => Rejected networkError.
Definition answering (t : string) : StreetPrompt -> nat -> Outcome GenerateContentResponse :=
  fun _ _ => Resolved {| text := Some t |}.

(** A [JSON.parse] that yields the given value. *)
Definition parsesTo (v : JValue) : string -> Outcome JValue := fun _ => Resolved v.

(** A narrow street of the verified data. *)
Definition narrowStreet : OsmStreetDetails :=
  {| name := "Salzgasse"; type := "residential"; width := Some "2.8";
     lanes := Some "1"; maxspeed := None; surface := None |}.

(** A generated analysis that ignores the width rule. *)
Definition permissive : gmap string JValue :=
  <["streetName" := JStr "Salzgasse"]>
  (<["isTruckSuitable" := JBool true]>
  (<["congestionScore" := JNum 3]>
  (<["congestionCurve" := num_array [1;1;2;6;9;7;5;8;9;6;3;2]]>
  (<["rushHourTimes" := JArr [JStr "07:30 - 09:00"]]>
  (<["description" := JStr "Fine."]> ∅))))).

(** A generated analysis with a curve of 12 values out of range. *)
Definition overshoot : gmap string JValue :=
  <["congestionCurve" := num_array [11;11;11;11;11;11;11;11;11;11;11;11]]> permissive.

(** A routing backend that answers "no route", and two waypoints. *)
Definition noRoute : list (R * R) -> Outcome Routing.Response :=
  fun _ => Resolved
    {| Routing.ok := true; Routing.statusText := "OK";
       Routing.json := Resolved {| Routing.osrm_code := "NoRoute"; Routing.routes := None |} |}.

Definition domplatz : Routing.Coordinates := {| Routing.lat := 50; Routing.lng := 7 |}.
Definition heumarkt : Routing.Coordinates := {| Routing.lat := 51; Routing.lng := 7 |}.

(** A session in route mode with a computed and analysed route. *)
Definition afterRoute : App.AppState :=
  {| App.selectedVehicle := LKW_HEAVY; App.mode := App.route;
     App.analysis := None; App.highlightedSegments := []; App.isHighlightSuitable := true;
     App.routePoints := [domplatz; heumarkt];
     App.routeCoordinates := [(50, 7); (51, 7)]%R;
     App.routeAnalysis := Some (JObj {["suitabilityScore" := JNum 80]});
     App.routeStreetNames := ["Hohe Strasse"];
     App.loading := false; App.liveTraffic := None; App.weather := None;
     App.markers := []; App.error := None |}.

(** A route with a repeated first vertex. *)
Definition stutter : list (R * R) := [(0, 0); (0, 0); (90, 0)]%R.

End Samples.

(** ** The time a trace spends waiting *)

Module Backoff.
Import Gemini.

(** The milliseconds of all the timer waits of a trace. *)
Fixpoint waited (tr : list Event) : Z :=
  match tr with
  | [] => 0
  | EvSleep ms :: tr' => ms + waited tr'
  | EvCall _ :: tr' => waited tr'
  end.

End Backoff.

(** ** services/geminiService.ts: the route analysis and the live data *)

Module RouteLogistics.
Import Gemini.

(** What the prompt of the route analysis is built from: the vehicle type
    and [streetNames.join(", ")]. *)
Record RoutePrompt : Type := {
  rp_vehicleType : VehicleType;
  rp_streets : string
}.

(** The object returned when the failure is a rate limit. *)
Definition degradedRoute : gmap string JValue :=
  <["suitabilityScore" := JNum 50]>
  (<["isRouteSuitable" := JBool true]>
  (<["majorWarnings" := JArr [JStr "AI Service Busy - Verification Incomplete"]]>
  (<["trafficPrediction" := JStr "Unknown (Service Busy)"]>
  (<["problematicStreets" := JArr []]>
  (<["estimatedDurationAdjustment" := JStr "Unknown"]> ∅))))).

(** The object returned on any other failure. *)
Definition failedRoute : gmap string JValue :=
  <["suitabilityScore" := JNum 0]>
  (<["isRouteSuitable" := JBool false]>
  (<["majorWarnings" := JArr [JStr "AI Analysis Service Unavailable"]]>
  (<["trafficPrediction" := JStr "Unknown"]>
  (<["problematicStreets" := JArr []]>
  (<["estimatedDurationAdjustment" := JStr "Unknown"]> ∅))))).

(** The [catch (error: any)] block. *)
Definition routeFallback (error : Thrown) : Completion JValue :=
  match error with
  | ThrowUndefined => Threw (ThrowError (TypeError_read "undefined" "status"))
  | ThrowError e =>
    if isRateLimit e then Returned (JObj degradedRoute)
    else Returned (JObj failedRoute)
  end.

Section AnalyzeRoute.
Variable generateContent : RoutePrompt -> nat -> Outcome GenerateContentResponse.
Variable JSON_parse : string -> Outcome JValue.

(** [const text = response.text; if (!text) throw new Error("No response")] *)
Definition routeText (response : GenerateContentResponse) : Completion string :=
  match text response with
  | Some t => if negb (String.eqb t "") then Returned t
              else Threw (ThrowError (Error "No response"))
  | None => Threw (ThrowError (Error "No response"))
  end.

(** [analyzeRouteLogistics(vehicleType, streetNames)]: what [JSON.parse]
    gives is returned as it is. *)
Definition analyzeRouteLogistics (vehicleType : VehicleType) (streetNames : list string)
  : list Event * Completion JValue :=
  let prompt := {| rp_vehicleType := vehicleType;
                   rp_streets := String.concat ", " streetNames |} in
  let (tr, call) := retryGeminiCall (generateContent prompt) 4 2500 in
  let body :=
    response ← call;
    text ← routeText response;
    await (JSON_parse text) in
  (tr, match body with
       | Returned analysis => Returned analysis
       | Threw error => routeFallback error
       end).
End AnalyzeRoute.

End RouteLogistics.

Module LiveTraffic.
Import Gemini.

(** [GenerateContentResponse] as [getLiveTrafficUpdates] reads it:
    [response.text] and
    [response.candidates?.[0]?.groundingMetadata?.groundingChunks], with
    the optional [web] of a chunk and its optional [title] and [uri]. *)
Record Web : Type := {
  title : option string;
  uri : option string
}.
Record GroundingChunk : Type := { web : option Web }.
Record GroundedResponse : Type := {
  live_text : option string;
  groundingChunks : option (list GroundingChunk)
}.

Record Source : Type := {
  source_title : string;
  source_uri : option string
}.

Record LiveTrafficData : Type := {
  summary : string;
  lastUpdated : string;
  sources : list Source
}.

(** [a || b] on an optional string. *)
Definition str_or (a : option string) (b : string) : string :=
  match a with
  | Some s => if negb (String.eqb s "") then s else b
  | None => b
  end.

(** The [forEach] over the chunks: one source for every chunk that has a
    [web], pushed in the order of the chunks. *)
Definition collectSources (chunks : list GroundingChunk) : list Source :=
  foldl (fun sources chunk =>
           match web chunk with
           | Some w => (sources ++ [ {| source_title := str_or (title w) "Source";
                                        source_uri := uri w |} ])%list
           | None => sources
           end) [] chunks.

Section Live.
(** The grounded search for a query context: how its k-th call settles. *)
Variable generateContent : string -> nat -> Outcome GroundedResponse.
(** [new Date().toLocaleTimeString()] *)
Variable now : string.

(** The [catch (error: any)] block. *)
Definition liveFallback (error : Thrown) : Completion LiveTrafficData :=
  match error with
  | ThrowUndefined => Threw (ThrowError (TypeError_read "undefined" "status"))
  | ThrowError e =>
    if isRateLimit e then Returned
      {| summary := "Live traffic updates temporarily unavailable due to high service demand. Please drive carefully.";
         lastUpdated := now; sources := [] |}
    else Returned
      {| summary := "Unable to fetch live traffic data at this time.";
         lastUpdated := now; sources := [] |}
  end.

(** [getLiveTrafficUpdates(queryContext)] *)
Definition getLiveTrafficUpdates (queryContext : string)
  : list Event * Completion LiveTrafficData :=
  let (tr, call) := retryGeminiCall (generateContent queryContext) 4 2500 in
  (tr, match call with
       | Returned response =>
         let text := str_or (live_text response) "No live data available." in
         let sources :=
           match groundingChunks response with
           | Some chunks => collectSources chunks
           | None => []
           end in
         Returned {| summary := text; lastUpdated := now; sources := sources |}
       | Threw error => liveFallback error
       end).
End Live.

End LiveTraffic.

(** ** services/osmService.ts *)

Module Osm.
Import Stdlib.Strings.Ascii.
Import Routing.

(** A string is read as its sequence of code units, each below 256. *)

(** The white space and line terminators below 256: tab, line feed,
    vertical tab, form feed, carriage return, space, no-break space. *)
Definition is_white (c : ascii) : bool :=
  let n := nat_of_ascii c in
  ((9 <=? n) && (n <=? 13) || (n =? 32) || (n =? 160))%nat.

Fixpoint trimStart (s : string) : string :=
  match s with
  | String c s' => if is_white c then trimStart s' else s
  | EmptyString => EmptyString
  end.

(** The string without its trailing white space. *)
Fixpoint trimEnd (s : string) : string :=
  match s with
  | String c s' =>
    match trimEnd s' with
    | EmptyString => if is_white c then EmptyString else String c EmptyString
    | rest => String c rest
    end
  | EmptyString => EmptyString
  end.

(** [s.trim()] *)
Definition trim (s : string) : string := trimEnd (trimStart s).

(** [s.split(',')[0]]: the part of [s] before its first comma. *)
Fixpoint beforeComma (s : string) : string :=
  match s with
  | String c s' => if Ascii.eqb c ","%char then EmptyString else String c (beforeComma s')
  | EmptyString => EmptyString
  end.

(** An element of an Overpass answer, as the two functions read it:
    [type], [tags] and, with [out geom], the [geometry] of [{lat, lon}]
    points. *)
Record Element : Type := {
  el_type : string;
  tags : option (gmap string string);
  el_geometry : option (list (R * R))
}.

Record OverpassData : Type := {
  elements : option (list Element)
}.

Record Response : Type := {
  ok : bool;
  json : Outcome OverpassData
}.

(** The two queries: ways of a name within 1000 m of a point, and ways
    with a highway tag within 20 m of a point. *)
Inductive Query : Type :=
  | WaysNamed (cleanName : string) (centerLat centerLng : R)
  | HighwaysAround (lat lng : R).

Inductive Event : Type :=
  | EvPost (q : Query).

Section OsmService.
(** [fetch(OVERPASS_API_URL, ..)] for a query. *)
Variable fetch : Query -> Outcome Response.

(** The [forEach] over the elements: the path of every way that has a
    geometry. *)
Definition collectSegments (els : list Element) : list (list Coordinates) :=
  foldl (fun segments element =>
           match el_geometry element with
           | Some geometry =>
             if String.eqb (el_type element) "way" then
               (segments ++ [map (fun pt => {| lat := pt.1; lng := pt.2 |}) geometry])%list
             else segments
           | None => segments
           end) [] els.

(** [getStreetGeometry(streetName, centerLat, centerLng)]: every failure
    gives the empty list. *)
Definition getStreetGeometry (streetName : string) (centerLat centerLng : R)
  : list Event * list (list Coordinates) :=
  let cleanName := trim (beforeComma streetName) in
  let query := WaysNamed cleanName centerLat centerLng in
  ([EvPost query],
   match fetch query with
   | Rejected _ => []
   | Resolved response =>
     if negb (ok response) then []
     else
       match json response with
       | Rejected _ => []
       | Resolved data =>
         match elements data with
         | Some els => collectSegments els
         | None => []
         end
       end
   end).



End OsmService.

End Osm.

(** ** services/geminiService.ts: the weather *)

Module Weather.
Import Stdlib.Strings.Ascii.
Import Gemini Osm.

(** Strings are read as in [Osm]: code units below 256. *)

(** The letter a pattern letter stands for under the flag [i]: capitals
    and small letters of the basic alphabet are the same, and no other
    code unit is the same as a letter of the patterns. *)
Definition fold_case (c : ascii) : ascii :=
  let n := nat_of_ascii c in
  if ((65 <=? n) && (n <=? 90))%nat then ascii_of_nat (n + 32) else c.

(** The rest of [s] behind [label], when [s] starts with [label] up to
    case. *)
Fixpoint starts_ci (label s : string) : option string :=
  match label with
  | EmptyString => Some s
  | String a label' =>
    match s with
    | String b s' =>
      if Ascii.eqb (fold_case a) (fold_case b) then starts_ci label' s' else None
    | EmptyString => None
    end
  end.

(** The rest of [s] behind the leftmost occurrence of [label], up to
    case. *)
Fixpoint after_label (label s : string) : option string :=
  match starts_ci label s with
  | Some rest => Some rest
  | None =>
    match s with
    | String _ s' => after_label label s'
    | EmptyString => None
    end
  end.

(** Whether the code unit [c] can stand for a character of [label]. *)
Fixpoint label_has (label : string) (c : ascii) : bool :=
  match label with
  | String a label' => Ascii.eqb (fold_case a) (fold_case c) || label_has label' c
  | EmptyString => false
  end.

(** A line terminator below 256: line feed or carriage return. *)
Definition is_line_terminator (c : ascii) : bool :=
  let n := nat_of_ascii c in ((n =? 10) || (n =? 13))%nat.

(** The greedy group of any characters at the start of [s]: up to the
    first line terminator. *)
Fixpoint line (s : string) : string :=
  match s with
  | String c s' => if is_line_terminator c then EmptyString else String c (line s')
  | EmptyString => EmptyString
  end.

(** [text.match(re)] for the pattern [re] made of the label, any white
    space (greedy) and a group of any characters (greedy), under the
    flag [i]: the group of the leftmost match, if there is a match.  The
    match starts at the leftmost occurrence of the label, since what
    follows the label in the pattern matches anything; the white space
    takes all there is behind the label, line terminators too, and the
    group is the rest of the line reached. *)
Definition capture (label text : string) : option string :=
  match after_label label text with
  | Some rest => Some (line (trimStart rest))
  | None => None
  end.

(** The capital of a code unit, as a string: the small letters, also the
    accented ones, go to their capitals, the sharp s to [SS]; the two
    letters whose capital is beyond 255 are left as they are (like their
    capitals they are none of [Y], [E], [S]). *)
Definition upper_char (c : ascii) : string :=
  let n := nat_of_ascii c in
  if ((97 <=? n) && (n <=? 122))%nat then String (ascii_of_nat (n - 32)) EmptyString
  else if ((224 <=? n) && (n <=? 254) && negb (n =? 247))%nat
       then String (ascii_of_nat (n - 32)) EmptyString
  else if (n =? 223)%nat then "SS"
  else String c EmptyString.

(** [s.toUpperCase()] *)
Fixpoint toUpperCase (s : string) : string :=
  match s with
  | String c s' => upper_char c ++ toUpperCase s'
  | EmptyString => EmptyString
  end.

Record WeatherData : Type := {
  temp : string;
  condition : string;
  impact : string;
  isSevere : bool
}.

(** The parse of the text of the response. *)
Definition parseWeather (text : string) : WeatherData :=
  {| temp := match capture "TEMP:" text with Some v => trim v | None => "N/A" end;
     condition := match capture "COND:" text with Some v => trim v | None => "Unknown" end;
     impact := match capture "IMPACT:" text with
               | Some v => trim v
               | None => "Weather data unavailable."
               end;
     isSevere := match capture "SEVERE:" text with
                 | Some v => includes (toUpperCase (trim v)) "YES"
                 | None => false
                 end |}.

(** The snapshot returned by the [catch] block, for a rate limit as for
    any other error. *)
Definition unavailable : WeatherData :=
  {| temp := "--"; condition := "Unavailable";
     impact := "Could not fetch weather data."; isSevere := false |}.

Section GetWeather.
(** The grounded search for the weather: how its k-th call settles. *)
Variable generateContent : nat -> Outcome GenerateContentResponse.

(** [getWeatherLogistics()], with the policy [(2, 2000)] of its call. *)
Definition getWeatherLogistics : list Gemini.Event * Completion WeatherData :=
  let (tr, call) := retryGeminiCall generateContent 2 2000 in
  (tr, match call with
       | Returned response => Returned (parseWeather (default "" (text response)))
       | Threw ThrowUndefined => Threw (ThrowError (TypeError_read "undefined" "status"))
       | Threw (ThrowError _) => Returned unavailable
       end).
End GetWeather.

End Weather.

(** ** App.tsx: the handlers that await

    A handler that awaits runs in phases: the part up to the first
    [await], and a continuation after each [await].  A phase reads the
    state of the render that created the handler (the captured state) and
    applies its setters to the state current when it runs.  The results of
    the awaited services are inputs of the continuation. *)

Module Session.
Import Routing App.

Definition setLoading (v : bool) (s : AppState) : AppState :=
  {| selectedVehicle := selectedVehicle s; mode := mode s; analysis := analysis s;
     highlightedSegments := highlightedSegments s; isHighlightSuitable := isHighlightSuitable s;
     routePoints := routePoints s; routeCoordinates := routeCoordinates s;
     routeAnalysis := routeAnalysis s; routeStreetNames := routeStreetNames s;
     loading := v; liveTraffic := liveTraffic s; weather := weather s;
     markers := markers s; error := error s |}.

Definition setIsHighlightSuitable (v : bool) (s : AppState) : AppState :=
  {| selectedVehicle := selectedVehicle s; mode := mode s; analysis := analysis s;
     highlightedSegments := highlightedSegments s; isHighlightSuitable := v;
     routePoints := routePoints s; routeCoordinates := routeCoordinates s;
     routeAnalysis := routeAnalysis s; routeStreetNames := routeStreetNames s;
     loading := loading s; liveTraffic := liveTraffic s; weather := weather s;
     markers := markers s; error := error s |}.

Definition setSelectedVehicle (v : Gemini.VehicleType) (s : AppState) : AppState :=
  {| selectedVehicle := v; mode := mode s; analysis := analysis s;
     highlightedSegments := highlightedSegments s; isHighlightSuitable := isHighlightSuitable s;
     routePoints := routePoints s; routeCoordinates := routeCoordinates s;
     routeAnalysis := routeAnalysis s; routeStreetNames := routeStreetNames s;
     loading := loading s; liveTraffic := liveTraffic s; weather := weather s;
     markers := markers s; error := error s |}.

Definition setWeather (v : option WeatherData) (s : AppState) : AppState :=
  {| selectedVehicle := selectedVehicle s; mode := mode s; analysis := analysis s;
     highlightedSegments := highlightedSegments s; isHighlightSuitable := isHighlightSuitable s;
     routePoints := routePoints s; routeCoordinates := routeCoordinates s;
     routeAnalysis := routeAnalysis s; routeStreetNames := routeStreetNames s;
     loading := loading s; liveTraffic := liveTraffic s; weather := v;
     markers := markers s; error := error s |}.

(** The state of the first render. *)
Definition initial : AppState :=
  {| selectedVehicle := Gemini.LKW_HEAVY; mode := explore;
     analysis := None; highlightedSegments := []; isHighlightSuitable := true;
     routePoints := []; routeCoordinates := []; routeAnalysis := None;
     routeStreetNames := [];
     loading := false; liveTraffic := None; weather := None;
     markers := []; error := None |}.

(** *** handleLocationSelect *)

(** The explore branch up to its first [await], after [setError(null)]. *)
Definition exploreBegin (now : string) (coords : Coordinates) (s : AppState) : AppState :=
  let s := setLoading true s in
  let s := setAnalysis None s in
  let s := setLiveTraffic None s in
  let s := setRouteAnalysis None s in
  let s := setHighlightedSegments [] s in
  let newMarker :=
    {| id := "user-" ++ now;
       position := coords;
       name := "Selected Location";
       type := user_selected;
       index := None |} in
  setMarkers (fun _ => [newMarker]) s.

(** [handleLocationSelect(coords)] up to its first [await], created in the
    render of [captured] and run on [s]. *)
Definition selectOn (now : string) (captured : AppState) (coords : Coordinates)
    (s : AppState) : AppState :=
  let s := setError None s in
  match mode captured with
  | explore => exploreBegin now coords s
  | route =>
    if (10 <=? length (routePoints captured))%nat then
      setError (Some "Max 10 waypoints allowed.") s
    else
      let newPoint := coords in
      let updatedPoints := (routePoints captured ++ [newPoint])%list in
      let s := setRoutePoints updatedPoints s in
      let newMarker :=
        {| id := "route-" ++ now;
           position := coords;
           name := "Stop " ++ pretty (length updatedPoints);
           type := route_point;
           index := Some (length updatedPoints) |} in
      setMarkers (fun prev => (prev ++ [newMarker])%list) s
  end.

(** What the check of [validName] decides: to ask for the geometry of a
    name, to leave the highlight alone, or a [TypeError] (the name has no
    [includes]). *)
Inductive NameCheck : Type :=
  | Highlight (validName : string)
  | NoHighlight
  | NameTypeError.

(** [validName && !validName.includes("Analysis Failed") &&
     validName !== "Unnamed Road"], with
    [validName = osmDetails?.name || analysisResult.streetName].  An array
    has an [includes] of its own, and [getStreetGeometry] rejects for it
    before any request. *)
Definition checkName (osmDetails : option Gemini.OsmStreetDetails)
    (analysisResult : gmap string JValue) : NameCheck :=
  let validName :=
    match osmDetails with
    | Some o =>
      if negb (String.eqb (Gemini.name o) "") then JStr (Gemini.name o)
      else default JUndefined (analysisResult !! "streetName")
    | None => default JUndefined (analysisResult !! "streetName")
    end in
  if truthy validName then
    match validName with
    | JStr v =>
      if includes v "Analysis Failed" then NoHighlight
      else if String.eqb v "Unnamed Road" then NoHighlight
      else Highlight v
    | JArr _ => NoHighlight
    | _ => NameTypeError
    end
  else NoHighlight.

(** The explore branch after [Promise.all]: the new state and the name
    whose geometry is asked for.  [isHighlightSuitable] is kept as the
    truthiness of [analysisResult.isTruckSuitable], which is all the map
    reads of it. *)
Definition exploreCommit (osmDetails : option Gemini.OsmStreetDetails)
    (analysisResult : Completion (gmap string JValue))
    (liveResult : Completion LiveTrafficData) (s : AppState)
  : AppState * option string :=
  match analysisResult, liveResult with
  | Returned a, Returned l =>
    let s := setAnalysis (Some a) s in
    let s := setIsHighlightSuitable (truthy (default JUndefined (a !! "isTruckSuitable"))) s in
    match checkName osmDetails a with
    | Highlight v => (setLoading false (setLiveTraffic (Some l) s), Some v)
    | NoHighlight => (setLoading false (setLiveTraffic (Some l) s), None)
    | NameTypeError =>
      (setLoading false (setError (Some "Failed to analyze location.") s), None)
    end
  | _, _ => (setLoading false (setError (Some "Failed to analyze location.") s), None)
  end.

(** [.then(segments => setHighlightedSegments(segments))] *)
Definition geometryCommit (segments : list (list Coordinates)) (s : AppState) : AppState :=
  setHighlightedSegments segments s.

(** *** handleSearch *)

(** Up to [await geocodeStreet(query)]. *)
Definition searchBegin (s : AppState) : AppState :=
  setError None (setLoading true s).

(** After [await geocodeStreet(query)], which never rejects: with
    coordinates, [handleLocationSelect] of the render that created the
    handler; with [null], the message. *)
Definition searchContinue (now : string) (captured : AppState)
    (found : option Coordinates) (s : AppState) : AppState :=
  match found with
  | Some coords => selectOn now captured coords s
  | None => setLoading false (setError (Some "Location not found in Cologne.") s)
  end.

(** *** handleCalculateRoute *)

(** Up to [await calculateRoute(routePoints)]: the new state and the
    points the route is asked for, if it is. *)
Definition calcBegin (s : AppState) : AppState * option (list Coordinates) :=
  if (length (routePoints s) <? 2)%nat then (s, None)
  else
    let points := routePoints s in
    let s := setLoading true s in
    let s := setError None s in
    let s := setRouteAnalysis None s in
    let s := setLiveTraffic None s in
    let s := setHighlightedSegments [] s in
    (s, Some points).

(** After [await calculateRoute(routePoints)]. *)
Definition calcRouted (routeData : Completion RouteResult) (s : AppState) : AppState :=
  match routeData with
  | Returned rd =>
    setRouteStreetNames (streetNames rd) (setRouteCoordinates (coordinates rd) s)
  | Threw _ =>
    setLoading false (setError (Some "Failed to calculate or analyze route.") s)
  end.

(** After [Promise.all] of the route analysis and the live data. *)
Definition calcAnalysed (analysisResult : Completion JValue)
    (liveResult : Completion LiveTrafficData) (s : AppState) : AppState :=
  match analysisResult, liveResult with
  | Returned a, Returned l =>
    setLoading false (setLiveTraffic (Some l) (setRouteAnalysis (Some a) s))
  | _, _ =>
    setLoading false (setError (Some "Failed to calculate or analyze route.") s)
  end.

(** *** onVehicleChange and the weather effect *)

Definition vehicleChange (v : Gemini.VehicleType) (s : AppState) : AppState :=
  let s := setSelectedVehicle v s in
  let s := setAnalysis None s in
  let s := setRouteAnalysis None s in
  let s := setLiveTraffic None s in
  setHighlightedSegments [] s.

(** *** The session *)

(** One phase of one handler.  A continuation may run at any later state,
    whatever happened since its handler began, and the continuation of a
    search may stem from any earlier render. *)
Inductive step : AppState -> AppState -> Prop :=
  | step_select now coords s :
      step s (selectOn now s coords s)
  | step_explore_commit osmDetails analysisResult liveResult s :
      step s (exploreCommit osmDetails analysisResult liveResult s).1
  | step_geometry segments s :
      step s (geometryCommit segments s)
  | step_search_begin s :
      step s (searchBegin s)
  | step_search_continue now captured found s :
      step s (searchContinue now captured found s)
  | step_calc_begin s :
      step s (calcBegin s).1
  | step_calc_routed routeData s :
      step s (calcRouted routeData s)
  | step_calc_analysed analysisResult liveResult s :
      step s (calcAnalysed analysisResult liveResult s)
  | step_clear s :
      step s (handleClearRoute s)
  | step_mode newMode s :
      step s (handleModeSwitch newMode s)
  | step_vehicle v s :
      step s (vehicleChange v s)
  | step_weather w s :
      step s (setWeather (Some w) s).

(** The states the session can be in. *)
Inductive reachable : AppState -> Prop :=
  | reachable_initial : reachable initial
  | reachable_step s s' : reachable s -> step s s' -> reachable s'.

End Session.

(** ** components/InfoPanel.tsx: what [animate] relies on of the memo *)

Module Memo.
Import Animator.
Local Open Scope R_scope.



End Memo.

(** ** Sessions, backends and routes of the examples *)

Module Scenarios.
Import Routing App Session.

(** A routing backend that reports "no route" under the status 400. *)
Definition noRouteBadRequest : list (R * R) -> Outcome Routing.Response :=
  fun _ => Resolved
    {| ok := false; statusText := "Bad Request";
       json := Resolved {| osrm_code := "NoRoute"; routes := None |} |}.

(** [n] clicks on the map at [coords], each on the callback of the render
    it happens in. *)
Fixpoint clicks (n : nat) (coords : Coordinates) (s : AppState) : AppState :=
  match n with
  | O => s
  | S n => let s := clicks n coords s in selectOn "1700000000000" s coords s
  end.

(** A session switched to route mode, with nine stops. *)
Definition nineStops : AppState :=
  clicks 9 Samples.domplatz (handleModeSwitch route initial).

(** A search is submitted there, and while its lookup is pending a click
    on the map adds the tenth stop. *)
Definition searching : AppState := searchBegin nineStops.
Definition tenStops : AppState :=
  selectOn "1700000000001" searching Samples.domplatz searching.


End Scenarios.

(** * Properties *)

(** ** The retry wrapper *)

(** The classification of some errors. *)
Example isRateLimit_status :
  Gemini.isRateLimit {| status := Some 429; code := None; message := None |} = true.
Proof. reflexivity. Qed.

Example isRateLimit_quota_message :
  Gemini.isRateLimit (Error "You exceeded your current quota, please check your plan.") = true.
Proof. reflexivity. Qed.

Example isRateLimit_other :
  Gemini.isRateLimit (Error "fetch failed") = false
  /\ Gemini.isRateLimit {| status := Some 500; code := Some 500; message := None |} = false.
Proof. split; reflexivity. Qed.

(** The policy of the weather call, [(2, 2000)], on an operation that is
    always rate limited: three calls, waits of 2000 and 4000 ms, and the
    last error thrown. *)
Example retry_weather_policy :
  Gemini.retryGeminiCall (fun _ => Rejected Samples.quotaError : Outcome unit) 2 2000
  = ([Gemini.EvCall 0; Gemini.EvSleep 2000; Gemini.EvCall 1; Gemini.EvSleep 4000;
      Gemini.EvCall 2], Threw (ThrowError Samples.quotaError)).
Proof. reflexivity. Qed.

(** A negative budget: no call is made and the unassigned [lastError] is
    thrown. *)
Example retry_negative_budget :
  Gemini.retryGeminiCall (fun _ => Resolved tt) (-1) 2000 = ([], Threw ThrowUndefined).
Proof. reflexivity. Qed.

Section RetryFacts.
Import Gemini.
Context {T : Type}.
Variable operation : nat -> Outcome T.
Variable maxRetries : Z.
Variable baseDelay : Z.

Local Abbreviation loop := (retry_loop operation maxRetries baseDelay).

(** One iteration that ends in a wait. *)
Lemma retry_loop_limited fuel a last e :
  Z.of_nat a < maxRetries ->
  operation a = Rejected e ->
  isRateLimit e = true ->
  loop (S fuel) a last =
    (EvCall a :: EvSleep (baseDelay * 2 ^ Z.of_nat a) :: (loop fuel (S a) (ThrowError e)).1,
     (loop fuel (S a) (ThrowError e)).2).
Proof.
  intros Hlt Hop Hrl. simpl.
  assert ((Z.of_nat a <=? maxRetries) = true) as -> by (apply Z.leb_le; lia).
  rewrite Hop, Hrl.
  assert ((Z.of_nat a <? maxRetries) = true) as -> by (apply Z.ltb_lt; lia).
  simpl. destruct (loop fuel (S a) (ThrowError e)); reflexivity.
Qed.

(** One iteration that ends the loop with the error of the operation. *)
Lemma retry_loop_throw fuel a last e :
  Z.of_nat a <= maxRetries ->
  operation a = Rejected e ->
  isRateLimit e = false \/ Z.of_nat a = maxRetries ->
  loop (S fuel) a last = ([EvCall a], Threw (ThrowError e)).
Proof.
  intros Hle Hop Hstop. simpl.
  assert ((Z.of_nat a <=? maxRetries) = true) as -> by (apply Z.leb_le; lia).
  rewrite Hop.
  destruct Hstop as [-> | Hmax]; [reflexivity|].
  assert ((Z.of_nat a <? maxRetries) = false) as -> by (apply Z.ltb_ge; lia).
  rewrite andb_false_r. reflexivity.
Qed.

(** One iteration that succeeds. *)
Lemma retry_loop_return fuel a last t :
  Z.of_nat a <= maxRetries ->
  operation a = Resolved t ->
  loop (S fuel) a last = ([EvCall a], Returned t).
Proof.
  intros Hle Hop. simpl.
  assert ((Z.of_nat a <=? maxRetries) = true) as -> by (apply Z.leb_le; lia).
  rewrite Hop. reflexivity.
Qed.

(** [k] rate-limited attempts in a row from attempt [a] unfold into their
    calls and waits. *)
Lemma retry_loop_backoff k : forall a fuel last,
  (forall j, (a <= j < a + k)%nat ->
             exists e, operation j = Rejected e /\ isRateLimit e = true) ->
  Z.of_nat (a + k) <= maxRetries ->
  exists last',
    loop (k + fuel) a last =
      ((backoff baseDelay a k ++ (loop fuel (a + k) last').1)%list,
       (loop fuel (a + k) last').2).
Proof.
  induction k as [|k IH]; intros a fuel last Hlim Hle.
  - exists last. rewrite Nat.add_0_r. simpl. destruct (loop fuel a last); reflexivity.
  - destruct (Hlim a ltac:(lia)) as (e & Hop & Hrl).
    destruct (IH (S a) fuel (ThrowError e)) as (last' & Heq).
    + intros j Hj. apply Hlim. lia.
    + lia.
    + exists last'. replace (S k + fuel)%nat with (S (k + fuel)) by lia.
      rewrite (retry_loop_limited _ _ _ e) by (try assumption; lia).
      rewrite Heq. simpl. replace (a + S k)%nat with (S a + k)%nat by lia.
      reflexivity.
Qed.

(** The fuel of the model is enough: once it covers the iterations left
    up to [maxRetries], more of it changes nothing. *)
Lemma retry_loop_fuel fuel1 : forall fuel2 a last,
  (Z.to_nat (maxRetries + 1 - Z.of_nat a) <= fuel1)%nat ->
  (Z.to_nat (maxRetries + 1 - Z.of_nat a) <= fuel2)%nat ->
  loop fuel1 a last = loop fuel2 a last.
Proof.
  induction fuel1 as [|fuel1 IH]; intros fuel2 a last H1 H2.
  - destruct fuel2 as [|fuel2]; [reflexivity|]. simpl.
    assert ((Z.of_nat a <=? maxRetries) = false) as -> by (apply Z.leb_gt; lia).
    reflexivity.
  - destruct fuel2 as [|fuel2]; simpl.
    + assert ((Z.of_nat a <=? maxRetries) = false) as -> by (apply Z.leb_gt; lia).
      reflexivity.
    + destruct (Z.of_nat a <=? maxRetries) eqn:Hle; [|reflexivity].
      apply Z.leb_le in Hle.
      destruct (operation a) as [t|e]; [reflexivity|].
      destruct (isRateLimit e && (Z.of_nat a <? maxRetries)); [|reflexivity].
      rewrite (IH fuel2 (S a) (ThrowError e)) by lia. reflexivity.
Qed.

(** An iteration entered within the budget starts with a call. *)
Lemma retry_loop_calls_first fuel a last :
  Z.of_nat a <= maxRetries ->
  exists rest, (loop (S fuel) a last).1 = EvCall a :: rest.
Proof.
  intros Hle. simpl.
  assert ((Z.of_nat a <=? maxRetries) = true) as -> by (apply Z.leb_le; lia).
  destruct (operation a) as [t|e]; [eexists; reflexivity|].
  destruct (isRateLimit e && (Z.of_nat a <? maxRetries)).
  - destruct (loop fuel (S a) (ThrowError e)). eexists; reflexivity.
  - eexists; reflexivity.
Qed.

(** The loop never calls more often than it has iterations left. *)
Lemma retry_loop_calls fuel : forall a last,
  (calls (loop fuel a last).1 <= fuel)%nat.
Proof.
  induction fuel as [|fuel IH]; intros a last; simpl; [unfold calls; simpl; lia|].
  destruct (Z.of_nat a <=? maxRetries); [|unfold calls; simpl; lia].
  destruct (operation a) as [t|e]; [unfold calls; simpl; lia|].
  destruct (isRateLimit e && (Z.of_nat a <? maxRetries)); [|unfold calls; simpl; lia].
  specialize (IH (S a) (ThrowError e)).
  destruct (loop fuel (S a) (ThrowError e)) as [tr r]. unfold calls in *. simpl in *. lia.
Qed.

(** When the budget is not negative, what is thrown is an error of the
    operation, never the unassigned [lastError]. *)
Lemma retry_loop_throws_error fuel : forall a e0,
  exists r, (loop fuel a (ThrowError e0)).2 = r /\ r <> Threw ThrowUndefined.
Proof.
  induction fuel as [|fuel IH]; intros a e0; simpl; [eexists; split; [reflexivity|discriminate]|].
  destruct (Z.of_nat a <=? maxRetries); [|eexists; split; [reflexivity|discriminate]].
  destruct (operation a) as [t|e]; [eexists; split; [reflexivity|discriminate]|].
  destruct (isRateLimit e && (Z.of_nat a <? maxRetries)); [|eexists; split; [reflexivity|discriminate]].
  destruct (IH (S a) e) as (r & Hr & Hne).
  destruct (loop fuel (S a) (ThrowError e)) as [tr r']. simpl in *. subst. eexists; split; [reflexivity|assumption].
Qed.

Lemma retry_loop_not_undefined fuel a last :
  Z.of_nat a <= maxRetries ->
  (loop (S fuel) a last).2 <> Threw ThrowUndefined.
Proof.
  intros Hle. simpl.
  assert ((Z.of_nat a <=? maxRetries) = true) as -> by (apply Z.leb_le; lia).
  destruct (operation a) as [t|e]; [discriminate|].
  destruct (isRateLimit e && (Z.of_nat a <? maxRetries)); [|discriminate].
  destruct (retry_loop_throws_error fuel (S a) e) as (r & Hr & Hne).
  destruct (loop fuel (S a) (ThrowError e)) as [tr r']. simpl in *. congruence.
Qed.

Lemma retryGeminiCall_not_undefined :
  0 <= maxRetries ->
  (retryGeminiCall operation maxRetries baseDelay).2 <> Threw ThrowUndefined.
Proof.
  intros Hle. unfold retryGeminiCall.
  replace (Z.to_nat (maxRetries + 1)) with (S (Z.to_nat maxRetries)) by lia.
  apply retry_loop_not_undefined. lia.
Qed.

(** The whole run, when the first [i] attempts are rate limited and the
    loop stops at attempt [i]. *)
Lemma retryGeminiCall_stops_at i r :
  Z.of_nat i <= maxRetries ->
  limited_before operation i ->
  (forall fuel last, loop (S fuel) i last = ([EvCall i], r)) ->
  retryGeminiCall operation maxRetries baseDelay =
    ((backoff baseDelay 0 i ++ [EvCall i])%list, r).
Proof.
  intros Hle Hlim Hstop. unfold retryGeminiCall.
  replace (Z.to_nat (maxRetries + 1)) with (i + S (Z.to_nat maxRetries - i))%nat by lia.
  destruct (retry_loop_backoff i 0 (S (Z.to_nat maxRetries - i)) ThrowUndefined) as (last' & ->).
  - intros j Hj. apply Hlim. lia.
  - simpl. lia.
  - simpl (0 + i)%nat. rewrite Hstop. reflexivity.
Qed.
(** C3.  Under the retry wrapper with the policy [(maxRetries, baseDelay)]:
    (1) a failure classified as rate limited at attempt [i < maxRetries] is
    followed by a wait of [baseDelay * 2^i] and then by attempt [i+1];
    (2) the operation is invoked at most [maxRetries + 1] times;
    (3) a failure that is not classified as rate limited is thrown at once,
    the trace ending with the failed call;
    (4) when all [maxRetries + 1] attempts are rate limited, the error of
    the last attempt is thrown;
    and (5) the first attempt that succeeds ends the run with its value. *)
Theorem C3_retry_policy :
  0 <= maxRetries ->
  let run := retryGeminiCall operation maxRetries baseDelay in
  (forall i e,
      Z.of_nat i < maxRetries ->
      limited_before operation i ->
      operation i = Rejected e ->
      isRateLimit e = true ->
      exists rest,
        run.1 = (backoff baseDelay 0 i
                 ++ EvCall i :: EvSleep (baseDelay * 2 ^ Z.of_nat i) :: EvCall (S i) :: rest)%list)
  /\ Z.of_nat (calls run.1) <= maxRetries + 1
  /\ (forall i e,
      Z.of_nat i <= maxRetries ->
      limited_before operation i ->
      operation i = Rejected e ->
      isRateLimit e = false ->
      run = ((backoff baseDelay 0 i ++ [EvCall i])%list, Threw (ThrowError e)))
  /\ (forall e,
      limited_before operation (Z.to_nat maxRetries) ->
      operation (Z.to_nat maxRetries) = Rejected e ->
      isRateLimit e = true ->
      run = ((backoff baseDelay 0 (Z.to_nat maxRetries) ++ [EvCall (Z.to_nat maxRetries)])%list,
             Threw (ThrowError e))
      /\ Z.of_nat (calls run.1) = maxRetries + 1)
  /\ (forall i t,
      Z.of_nat i <= maxRetries ->
      limited_before operation i ->
      operation i = Resolved t ->
      run = ((backoff baseDelay 0 i ++ [EvCall i])%list, Returned t)).
Proof.
  intros Hmax run. subst run. repeat split.
  - intros i e Hi Hlim Hop Hrl. unfold retryGeminiCall.
    replace (Z.to_nat (maxRetries + 1)) with (i + S (S (Z.to_nat maxRetries - S i)))%nat by lia.
    destruct (retry_loop_backoff i 0 (S (S (Z.to_nat maxRetries - S i))) ThrowUndefined)
      as (last' & ->).
    + intros j Hj. apply Hlim. lia.
    + simpl. lia.
    + simpl (0 + i)%nat. rewrite (retry_loop_limited _ _ _ e) by assumption.
      destruct (retry_loop_calls_first (Z.to_nat maxRetries - S i) (S i) (ThrowError e))
        as (rest & Hrest); [lia|].
      exists rest. cbn [fst]. rewrite Hrest. reflexivity.
  - unfold retryGeminiCall.
    pose proof (retry_loop_calls (Z.to_nat (maxRetries + 1)) 0 ThrowUndefined). lia.
  - intros i e Hi Hlim Hop Hrl. apply retryGeminiCall_stops_at; try assumption.
    intros fuel last. apply retry_loop_throw; auto.
  - apply retryGeminiCall_stops_at; try assumption; [lia|].
    intros fuel last. apply retry_loop_throw; auto; lia.
  - rewrite (retryGeminiCall_stops_at (Z.to_nat maxRetries) (Threw (ThrowError e)));
      try assumption; [| lia |intros fuel last; apply retry_loop_throw; auto; lia].
    cbn [fst]. unfold calls. rewrite List.filter_app, length_app. simpl.
    assert (forall a k, length (List.filter is_call (backoff baseDelay a k)) = k) as ->.
    { intros a k. revert a. induction k as [|k IH]; intros a; simpl; [reflexivity|].
      rewrite IH. reflexivity. }
    lia.
  - intros i t Hi Hlim Hop. apply retryGeminiCall_stops_at; try assumption.
    intros fuel last. apply retry_loop_return; auto.
Qed.
End RetryFacts.

Lemma C3_retry_policy_witness :
  Gemini.retryGeminiCall Samples.busyTwice 4 2500 =
    ([Gemini.EvCall 0; Gemini.EvSleep 2500; Gemini.EvCall 1; Gemini.EvSleep 5000;
      Gemini.EvCall 2], Returned tt).
Proof.
  destruct (C3_retry_policy Samples.busyTwice 4 2500 ltac:(lia)) as (_ & _ & _ & _ & Hret).
  apply (Hret 2%nat tt); [lia | | reflexivity].
  intros j Hj. exists Samples.quotaError.
  destruct j as [|[|j]]; [split; reflexivity | split; reflexivity | lia].
Defined.

(** ** Street analysis *)

Section AnalyzeFacts.
Import Gemini.
Variable generateContent : StreetPrompt -> nat -> Outcome GenerateContentResponse.
Variable JSON_parse : string -> Outcome JValue.
Variable now : string.

Local Abbreviation analyze := (analyzeStreetConditions generateContent JSON_parse now).
Local Abbreviation call lat lng vehicleType osmData :=
  (retryGeminiCall (generateContent (streetPrompt lat lng vehicleType osmData)) 4 2500).

(** Reading one field of an object literal. *)
Ltac read_field := repeat (rewrite lookup_insert_ne by discriminate); rewrite ?lookup_insert_eq.

(** The trace of the analysis is the trace of the wrapped call. *)
Lemma analyze_trace lat lng vehicleType osmData :
  (analyze lat lng vehicleType osmData).1 = (call lat lng vehicleType osmData).1.
Proof.
  unfold analyzeStreetConditions. destruct (retryGeminiCall _ _ _); reflexivity.
Qed.

(** When the wrapped call throws, the analysis is the fallback. *)
Lemma analyze_call_throws lat lng vehicleType osmData tr x :
  call lat lng vehicleType osmData = (tr, Threw x) ->
  analyze lat lng vehicleType osmData = (tr, analysisFallback now osmData x).
Proof.
  intros H. unfold analyzeStreetConditions. rewrite H. reflexivity.
Qed.

(** When the wrapped call returns, the analysis is the merge of the parsed
    text, or the fallback for what reading, parsing or merging throws. *)
Lemma analyze_call_returns lat lng vehicleType osmData tr response :
  call lat lng vehicleType osmData = (tr, Returned response) ->
  analyze lat lng vehicleType osmData =
    (tr, match (text ← responseText response;
                data ← await (JSON_parse text);
                mergeAnalysis now data osmData) with
         | Returned analysis => Returned analysis
         | Threw error => analysisFallback now osmData error
         end).
Proof.
  intros H. unfold analyzeStreetConditions. rewrite H. reflexivity.
Qed.

Lemma merge_object m osmData :
  mergeAnalysis now (JObj m) osmData =
    let streetWidth := default JUndefined (m !! "streetWidth") in
    let congestionCurve := default JUndefined (m !! "congestionCurve") in
    Returned
      (<["lastUpdated" := JStr now]>
       (<["congestionCurve" :=
            match opt_prop congestionCurve "length" with
            | Returned len => if strict_eq_num len 12 then congestionCurve else defaultCurve
            | Threw _ => defaultCurve
            end]>
        (<["lanes" := opt_str (osmData ≫= lanes)]>
         (<["streetWidth" := or_else streetWidth (osmWidth osmData JUndefined)]> m)))).
Proof.
  unfold mergeAnalysis. simpl.
  destruct (default JUndefined (m !! "congestionCurve")); reflexivity.
Qed.

(** What the merge throws is an error object. *)
Lemma merge_throws data osmData x :
  mergeAnalysis now data osmData = Threw x -> exists e, x = ThrowError e.
Proof.
  unfold mergeAnalysis.
  destruct data; simpl; try (intros [= <-]; eexists; reflexivity);
    try match goal with
        | |- context [opt_prop ?c _] => destruct c; simpl; discriminate
        end.
  all: destruct (String.eqb _ _); simpl; try discriminate.
Qed.

(** The curve of a merged result: of length 12, and either the default or
    the generated value as it came. *)
Lemma merge_curve data osmData analysis :
  mergeAnalysis now data osmData = Returned analysis ->
  exists cc,
    analysis !! "congestionCurve" = Some cc
    /\ prop cc "length" = Returned (JNum 12)
    /\ (cc = defaultCurve \/ prop data "congestionCurve" = Returned cc).
Proof.
  unfold mergeAnalysis.
  destruct (prop data "streetWidth") as [sw|?]; [|discriminate]. cbn [mbind Completion_bind].
  destruct (prop data "congestionCurve") as [cc|?] eqn:Hcc; [|discriminate].
  cbn [mbind Completion_bind].
  destruct (opt_prop cc "length") as [len|?] eqn:Hlen; [|discriminate].
  cbn [mbind Completion_bind mret Completion_ret]. intros [= <-].
  destruct (strict_eq_num len 12) eqn:H12.
  - exists cc. split; [read_field; reflexivity|]. split; [|right; reflexivity].
    destruct len; try discriminate. simpl in H12. apply Z.eqb_eq in H12. subst n.
    destruct cc; simpl in Hlen; try discriminate; assumption.
  - exists defaultCurve. split; [read_field; reflexivity|]. split; [reflexivity|left; reflexivity].
Qed.

(** The curve of a fallback result: one of the two fixed curves. *)
Lemma fallback_curve osmData e :
  exists analysis cc,
    analysisFallback now osmData (ThrowError e) = Returned analysis
    /\ analysis !! "congestionCurve" = Some cc
    /\ prop cc "length" = Returned (JNum 12)
    /\ curve_ok cc = true.
Proof.
  simpl. destruct (isRateLimit e).
  - exists (degradedAnalysis now osmData), flatCurve.
    split; [reflexivity|]. split; [unfold degradedAnalysis; read_field; reflexivity|].
    split; reflexivity.
  - exists (failedAnalysis now osmData), zeroCurve.
    split; [reflexivity|]. split; [unfold failedAnalysis; read_field; reflexivity|].
    split; reflexivity.
Qed.

(** The analysis always returns: every failure of the call, of reading the
    text, of parsing and of merging ends in a fallback object. *)
Lemma analyze_returns lat lng vehicleType osmData :
  exists analysis, (analyze lat lng vehicleType osmData).2 = Returned analysis.
Proof.
  pose proof (retryGeminiCall_not_undefined
                (generateContent (streetPrompt lat lng vehicleType osmData)) 4 2500
                ltac:(lia)) as Hdef.
  destruct (call lat lng vehicleType osmData) as [tr [response|x]] eqn:Hcall.
  - rewrite (analyze_call_returns _ _ _ _ _ _ Hcall). cbn [snd].
    unfold responseText.
    destruct (text response) as [t|]; [destruct (negb (String.eqb t ""))|];
      cbn [mbind Completion_bind];
      try (destruct (fallback_curve osmData (Error "No response from Gemini"))
             as (a & _ & -> & _); eexists; reflexivity).
    destruct (JSON_parse t) as [data|e]; cbn [await mbind Completion_bind].
    + destruct (mergeAnalysis now data osmData) as [a|x] eqn:Hm; [eexists; reflexivity|].
      destruct (merge_throws _ _ _ Hm) as (e & ->).
      destruct (fallback_curve osmData e) as (a & _ & -> & _). eexists; reflexivity.
    + destruct (fallback_curve osmData e) as (a & _ & -> & _). eexists; reflexivity.
  - rewrite (analyze_call_throws _ _ _ _ _ _ Hcall). cbn [snd] in *.
    destruct x as [|e]; [congruence|].
    destruct (fallback_curve osmData e) as (a & _ & -> & _). eexists; reflexivity.
Qed.

(** C1, as the code has it.  Every result of [analyzeStreetConditions],
    merged or fallback, carries a [congestionCurve] whose [length] is
    exactly 12; the curve is an array of 12 integers in [0,10] on both
    fallback paths and when the default is substituted, and is otherwise
    the generated [congestionCurve] as it was parsed, its elements
    unchecked. *)
Theorem C1_curve_length_invariant lat lng vehicleType osmData :
  exists analysis cc,
    (analyze lat lng vehicleType osmData).2 = Returned analysis
    /\ analysis !! "congestionCurve" = Some cc
    /\ prop cc "length" = Returned (JNum 12)
    /\ (curve_ok cc = true
        \/ exists text data,
             JSON_parse text = Resolved data
             /\ prop data "congestionCurve" = Returned cc).
Proof.
  pose proof (retryGeminiCall_not_undefined
                (generateContent (streetPrompt lat lng vehicleType osmData)) 4 2500
                ltac:(lia)) as Hdef.
  assert (forall e, exists analysis cc,
             analysisFallback now osmData (ThrowError e) = Returned analysis
             /\ analysis !! "congestionCurve" = Some cc
             /\ prop cc "length" = Returned (JNum 12)
             /\ (curve_ok cc = true
                 \/ exists text data,
                      JSON_parse text = Resolved data
                      /\ prop data "congestionCurve" = Returned cc)) as Hfb.
  { intros e. destruct (fallback_curve osmData e) as (a & cc & H1 & H2 & H3 & H4).
    exists a, cc. auto. }
  destruct (call lat lng vehicleType osmData) as [tr [response|x]] eqn:Hcall.
  - rewrite (analyze_call_returns _ _ _ _ _ _ Hcall). cbn [snd].
    unfold responseText.
    destruct (text response) as [t|]; [destruct (negb (String.eqb t ""))|];
      cbn [mbind Completion_bind]; try apply Hfb.
    destruct (JSON_parse t) as [data|e] eqn:Hparse; cbn [await mbind Completion_bind];
      [|apply Hfb].
    destruct (mergeAnalysis now data osmData) as [a|x] eqn:Hm.
    + destruct (merge_curve _ _ _ Hm) as (cc & Hcc & Hlen & Hsrc).
      exists a, cc. repeat split; try assumption.
      destruct Hsrc as [-> | Hgen]; [left; reflexivity|].
      right. exists t, data. auto.
    + destruct (merge_throws _ _ _ Hm) as (e & ->). apply Hfb.
  - rewrite (analyze_call_throws _ _ _ _ _ _ Hcall). cbn [snd] in *.
    destruct x as [|e]; [congruence|]. apply Hfb.
Qed.

(** C2.  When the wrapped generative call ends by throwing an error, the
    analysis returns (it does not throw): the degraded object, with
    [isTruckSuitable = true] and the curve [2,2,2,5,5,5,5,5,5,5,2,2], when
    the error is classified as a rate limit, and the failed object, with
    [isTruckSuitable = false] and the curve of twelve zeros, otherwise.
    The two objects differ, whatever the verified context of each; and the
    analysis returns an object on every input, whatever fails. *)
Theorem C2_fallback_shapes lat lng vehicleType osmData tr e :
  call lat lng vehicleType osmData = (tr, Threw (ThrowError e)) ->
  exists analysis,
    analyze lat lng vehicleType osmData = (tr, Returned analysis)
    /\ (if isRateLimit e
        then analysis = degradedAnalysis now osmData
             /\ analysis !! "isTruckSuitable" = Some (JBool true)
             /\ analysis !! "congestionCurve" = Some (num_array [2;2;2;5;5;5;5;5;5;5;2;2])
        else analysis = failedAnalysis now osmData
             /\ analysis !! "isTruckSuitable" = Some (JBool false)
             /\ analysis !! "congestionCurve" = Some (num_array [0;0;0;0;0;0;0;0;0;0;0;0]))
    /\ (forall osmData1 osmData2,
          degradedAnalysis now osmData1 <> failedAnalysis now osmData2)
    /\ (forall lat' lng' vehicleType' osmData',
          exists analysis', (analyze lat' lng' vehicleType' osmData').2 = Returned analysis').
Proof.
  intros Hcall. rewrite (analyze_call_throws _ _ _ _ _ _ Hcall). simpl.
  assert (forall lat' lng' vehicleType' osmData',
             exists analysis', (analyze lat' lng' vehicleType' osmData').2 = Returned analysis')
    as Htotal by (intros; apply analyze_returns).
  assert (forall osmData1 osmData2,
             degradedAnalysis now osmData1 <> failedAnalysis now osmData2) as Hne.
  { intros o1 o2 Heq.
    assert (degradedAnalysis now o1 !! "isTruckSuitable"
            = failedAnalysis now o2 !! "isTruckSuitable") as H by (rewrite Heq; reflexivity).
    unfold degradedAnalysis, failedAnalysis in H. revert H. read_field. discriminate. }
  destruct (isRateLimit e); eexists; (split; [reflexivity|]);
    (split; [|split; [exact Hne|exact Htotal]]).
  - split; [reflexivity|]. unfold degradedAnalysis. split; read_field; reflexivity.
  - split; [reflexivity|]. unfold failedAnalysis. split; read_field; reflexivity.
Qed.

(** C4.  The merge keeps the generator's verdict: when the call succeeds
    and its text parses to an object, the [isTruckSuitable] of the result
    is that of the object, whatever the vehicle class and the verified
    width. *)
Theorem C4_merge_keeps_verdict lat lng vehicleType osmData tr response txt m :
  call lat lng vehicleType osmData = (tr, Returned response) ->
  responseText response = Returned txt ->
  JSON_parse txt = Resolved (JObj m) ->
  exists analysis,
    analyze lat lng vehicleType osmData = (tr, Returned analysis)
    /\ analysis !! "isTruckSuitable" = m !! "isTruckSuitable".
Proof.
  intros Hcall Htext Hparse.
  rewrite (analyze_call_returns _ _ _ _ _ _ Hcall), Htext. cbn [mbind Completion_bind].
  rewrite Hparse. cbn [await mbind Completion_bind]. rewrite merge_object. cbv zeta.
  eexists. split; [reflexivity|]. read_field. reflexivity.
Qed.

(** C5.  When the call succeeds and its text parses to an object, the
    result has: as [streetWidth] the generated value when it is there
    (truthy), else the verified width with its unit when that is there,
    else [undefined]; as [lanes] the verified lanes, whatever was
    generated; as [congestionCurve] the generated array when its length is
    12, and the fixed default of 12 buckets when the array has another
    length or is missing. *)
Theorem C5_merge_fields lat lng vehicleType osmData tr response txt m :
  call lat lng vehicleType osmData = (tr, Returned response) ->
  responseText response = Returned txt ->
  JSON_parse txt = Resolved (JObj m) ->
  exists analysis,
    analyze lat lng vehicleType osmData = (tr, Returned analysis)
    /\ (forall v, m !! "streetWidth" = Some v -> truthy v = true ->
                  analysis !! "streetWidth" = Some v)
    /\ (default false (truthy <$> m !! "streetWidth") = false ->
        analysis !! "streetWidth" =
          Some (match osmData ≫= width with
                | Some w => if String.eqb w "" then JUndefined else JStr (w ++ "m")
                | None => JUndefined
                end))
    /\ analysis !! "lanes" = Some (opt_str (osmData ≫= lanes))
    /\ (forall l, m !! "congestionCurve" = Some (JArr l) ->
          analysis !! "congestionCurve" =
            Some (if decide (length l = 12%nat) then JArr l else defaultCurve))
    /\ (m !! "congestionCurve" = None ->
        analysis !! "congestionCurve" = Some defaultCurve)
    /\ curve_ok defaultCurve = true.
Proof.
  intros Hcall Htext Hparse.
  rewrite (analyze_call_returns _ _ _ _ _ _ Hcall), Htext. cbn [mbind Completion_bind].
  rewrite Hparse. cbn [await mbind Completion_bind]. rewrite merge_object. cbv zeta.
  eexists. split; [reflexivity|]. repeat split.
  - intros v Hv Ht. read_field. rewrite Hv. simpl. unfold or_else. rewrite Ht. reflexivity.
  - intros Hf. read_field. unfold or_else.
    destruct (m !! "streetWidth") as [v|]; simpl in *.
    + rewrite Hf. unfold osmWidth. destruct (osmData ≫= width) as [w|]; [|reflexivity].
      destruct (String.eqb w ""); reflexivity.
    + unfold osmWidth. destruct (osmData ≫= width) as [w|]; [|reflexivity].
      destruct (String.eqb w ""); reflexivity.
  - read_field. reflexivity.
  - intros l Hl. read_field. rewrite Hl. simpl.
    destruct (decide (length l = 12%nat)) as [Hlen|Hlen].
    + rewrite Hlen. reflexivity.
    + destruct (Z.of_nat (length l) =? 12) eqn:E; [|reflexivity].
      apply Z.eqb_eq in E. lia.
  - intros Hnone. read_field. rewrite Hnone. reflexivity.
Qed.
End AnalyzeFacts.

(** C1, as the specification states it, fails: a generator that answers
    with a curve of twelve values of 11 gets that curve back in the merged
    result, since only the length is checked. *)
Lemma C1_generated_curve_out_of_range :
  ~ (forall generateContent JSON_parse now lat lng vehicleType osmData analysis,
        (Gemini.analyzeStreetConditions generateContent JSON_parse now
           lat lng vehicleType osmData).2 = Returned analysis ->
        Gemini.curve_in_spec analysis = true).
Proof.
  intros H.
  pose proof (H (Samples.answering "{}") (Samples.parsesTo (JObj Samples.overshoot))
                "12:00:00" 0%R 0%R Gemini.LKW_HEAVY (Some Samples.narrowStreet)
                _ eq_refl) as Hc.
  vm_compute in Hc. discriminate.
Qed.

Lemma C2_fallback_shapes_witness :
  exists analysis,
    Gemini.analyzeStreetConditions Samples.alwaysBusy (Samples.parsesTo JNull) "12:00:00"
      0%R 0%R Gemini.LKW_HEAVY (Some Samples.narrowStreet)
    = ([Gemini.EvCall 0; Gemini.EvSleep 2500; Gemini.EvCall 1; Gemini.EvSleep 5000;
        Gemini.EvCall 2; Gemini.EvSleep 10000; Gemini.EvCall 3; Gemini.EvSleep 20000;
        Gemini.EvCall 4], Returned analysis)
    /\ analysis !! "isTruckSuitable" = Some (JBool true)
    /\ analysis !! "congestionCurve" = Some (Gemini.num_array [2;2;2;5;5;5;5;5;5;5;2;2]).
Proof.
  destruct (C2_fallback_shapes Samples.alwaysBusy (Samples.parsesTo JNull) "12:00:00"
              0%R 0%R Gemini.LKW_HEAVY (Some Samples.narrowStreet)
              _ Samples.quotaError eq_refl) as (analysis & Heq & Hshape & _ & _).
  exists analysis. split; [exact Heq|]. simpl in Hshape. split; apply Hshape.
Defined.

Lemma C4_merge_keeps_verdict_witness :
  exists analysis,
    Gemini.analyzeStreetConditions (Samples.answering "{}")
      (Samples.parsesTo (JObj Samples.permissive)) "12:00:00"
      0%R 0%R Gemini.LKW_HEAVY (Some Samples.narrowStreet)
    = ([Gemini.EvCall 0], Returned analysis)
    /\ analysis !! "isTruckSuitable" = Some (JBool true).
Proof.
  destruct (C4_merge_keeps_verdict (Samples.answering "{}")
              (Samples.parsesTo (JObj Samples.permissive)) "12:00:00"
              0%R 0%R Gemini.LKW_HEAVY (Some Samples.narrowStreet)
              _ _ "{}" Samples.permissive eq_refl eq_refl eq_refl) as (analysis & Heq & Hv).
  exists analysis. split; [exact Heq|]. rewrite Hv. reflexivity.
Defined.

Lemma C5_merge_fields_witness :
  exists analysis,
    Gemini.analyzeStreetConditions (Samples.answering "{}")
      (Samples.parsesTo (JObj Samples.permissive)) "12:00:00"
      0%R 0%R Gemini.LKW_HEAVY (Some Samples.narrowStreet)
    = ([Gemini.EvCall 0], Returned analysis)
    /\ analysis !! "streetWidth" = Some (JStr "2.8m")
    /\ analysis !! "lanes" = Some (JStr "1")
    /\ analysis !! "congestionCurve" = Some (Gemini.num_array [1;1;2;6;9;7;5;8;9;6;3;2]).
Proof.
  destruct (C5_merge_fields (Samples.answering "{}")
              (Samples.parsesTo (JObj Samples.permissive)) "12:00:00"
              0%R 0%R Gemini.LKW_HEAVY (Some Samples.narrowStreet)
              _ _ "{}" Samples.permissive eq_refl eq_refl eq_refl)
    as (analysis & Heq & _ & Hwidth & Hlanes & Hcurve & _).
  exists analysis. split; [exact Heq|].
  split; [apply Hwidth; reflexivity|]. split; [exact Hlanes|].
  rewrite (Hcurve (JNum <$> [1;1;2;6;9;7;5;8;9;6;3;2]) eq_refl). reflexivity.
Defined.

(** ** Route computation *)

(** The step names of a route are collected once each, in the order of
    their first occurrence, and empty or missing names are left out. *)
Example collectStreetNames_unique :
  Routing.collectStreetNames
    {| Routing.geometry_coordinates := [];
       Routing.legs :=
         [ {| Routing.steps := [ {| Routing.step_name := Some "Hohe Strasse" |};
                                 {| Routing.step_name := Some "" |};
                                 {| Routing.step_name := Some "Schildergasse" |} ] |};
           {| Routing.steps := [ {| Routing.step_name := None |};
                                 {| Routing.step_name := Some "Hohe Strasse" |};
                                 {| Routing.step_name := Some "Pipinstrasse" |} ] |} ];
       Routing.route_duration := 0; Routing.route_distance := 0 |}
  = ["Hohe Strasse"; "Schildergasse"; "Pipinstrasse"].
Proof. reflexivity. Qed.

Section RoutingFacts.
Import Routing.
Variable fetch : list (R * R) -> Outcome Response.

(** A response that is not [ok] is a failure of the routing service,
    whatever its body says. *)
Lemma calculateRoute_service_error (points : list Coordinates) response :
  (2 <= length points)%nat ->
  fetch (map (fun p => (lng p, lat p)) points) = Resolved response ->
  ok response = false ->
  calculateRoute fetch points =
    ([EvFetch (map (fun p => (lng p, lat p)) points)],
     Threw (ThrowError (Error ("Routing service error: " ++ statusText response)))).
Proof.
  intros Hlen Hfetch Hok. unfold calculateRoute.
  assert ((length points <? 2)%nat = false) as -> by (apply Nat.ltb_ge; lia).
  rewrite Hfetch. cbn [await mbind Completion_bind]. unfold readRoute. rewrite Hok.
  reflexivity.
Qed.

(** C6, as the code has it.  [calculateRoute] on fewer than 2 points
    throws the error of an invalid input and issues no request; when the
    backend answers with an [ok] response whose body has a code other than
    [Ok], or no routes, or an empty list of routes, it throws the error of
    "no route found"; when the response is not [ok] it throws the error of
    the routing service, whatever the body reports.  In all three cases
    the call completes by throwing, so no [RouteResult] is produced. *)
Theorem C6_route_failures (points : list Coordinates) :
  ((length points < 2)%nat ->
     exists x,
       calculateRoute fetch points = ([], Threw x)
       /\ x = ThrowError (Error "At least two points are required for a route.")
       /\ classify x = InvalidInput)
  /\ (forall response data,
       (2 <= length points)%nat ->
       fetch (map (fun p => (lng p, lat p)) points) = Resolved response ->
       ok response = true ->
       json response = Resolved data ->
       osrm_code data <> "Ok" \/ routes data = None \/ routes data = Some [] ->
       exists x,
         calculateRoute fetch points =
           ([EvFetch (map (fun p => (lng p, lat p)) points)], Threw x)
         /\ x = ThrowError (Error "No route found.")
         /\ classify x = NoRouteFound)
  /\ (forall response,
       (2 <= length points)%nat ->
       fetch (map (fun p => (lng p, lat p)) points) = Resolved response ->
       ok response = false ->
       exists x,
         calculateRoute fetch points =
           ([EvFetch (map (fun p => (lng p, lat p)) points)], Threw x)
         /\ x = ThrowError (Error ("Routing service error: " ++ statusText response))
         /\ classify x = OtherFailure).
Proof.
  split; [|split].
  - intros Hlen. eexists. unfold calculateRoute.
    assert ((length points <? 2)%nat = true) as -> by (apply Nat.ltb_lt; lia).
    repeat split.
  - intros response data Hlen Hfetch Hok Hjson Hno. eexists. unfold calculateRoute.
    assert ((length points <? 2)%nat = false) as -> by (apply Nat.ltb_ge; lia).
    rewrite Hfetch. cbn [await mbind Completion_bind]. unfold readRoute.
    rewrite Hok, Hjson. cbn [negb await mbind Completion_bind].
    assert (negb (String.eqb (osrm_code data) "Ok")
            || match routes data with None => true | Some _ => false end
            || (length (default [] (routes data)) =? 0)%nat = true) as ->.
    { destruct Hno as [Hcode | [-> | ->]].
      - apply String.eqb_neq in Hcode. rewrite Hcode. reflexivity.
      - rewrite orb_true_r. reflexivity.
      - simpl. rewrite orb_true_r. reflexivity. }
    repeat split.
  - intros response Hlen Hfetch Hok. eexists.
    split; [exact (calculateRoute_service_error points response Hlen Hfetch Hok)|].
    split; reflexivity.
Qed.
End RoutingFacts.

Lemma C6_route_failures_witness :
  Routing.calculateRoute Samples.noRoute [Samples.domplatz]
    = ([], Threw (ThrowError (Error "At least two points are required for a route.")))
  /\ Routing.calculateRoute Samples.noRoute [Samples.domplatz; Samples.heumarkt]
    = ([Routing.EvFetch [(7, 50); (7, 51)]%R], Threw (ThrowError (Error "No route found."))).
Proof.
  split.
  - destruct (C6_route_failures Samples.noRoute [Samples.domplatz]) as [Hshort _].
    destruct Hshort as (x & Heq & -> & _); [simpl; lia|]. exact Heq.
  - destruct (C6_route_failures Samples.noRoute [Samples.domplatz; Samples.heumarkt])
      as [_ [Hnone _]].
    destruct (Hnone _ _ ltac:(simpl; lia) eq_refl eq_refl eq_refl
                (or_intror (or_introl eq_refl))) as (x & Heq & -> & _).
    exact Heq.
Defined.

(** C6, as the specification states it, fails at a backend that reports
    "no route" under the status 400: the response is not [ok], the body is
    never read, and the error thrown is the one of the routing service,
    not the one of "no route found". *)
Lemma C6_no_route_under_error_status :
  ~ (forall fetch points response data x,
       (2 <= length points)%nat ->
       fetch (map (fun p => (Routing.lng p, Routing.lat p)) points) = Resolved response ->
       Routing.json response = Resolved data ->
       Routing.osrm_code data = "NoRoute" ->
       (Routing.calculateRoute fetch points).2 = Threw x ->
       Routing.classify x = Routing.NoRouteFound).
Proof.
  intros H.
  specialize (H Scenarios.noRouteBadRequest [Samples.domplatz; Samples.heumarkt] _ _ _
                ltac:(simpl; lia) eq_refl eq_refl eq_refl eq_refl).
  discriminate H.
Qed.

(** ** The session *)

Section SessionFacts.
Import Routing App.
Variable exploreSelect : AppState -> Coordinates -> AppState.
Variable now : string.

Lemma setError_setError a b s : setError a (setError b s) = setError a s.
Proof. destruct s; reflexivity. Qed.

(** The route branch of [handleLocationSelect]: the check and the new
    waypoints are those of the render of the callback, the markers and
    the message those of the state the setters act on. *)
Lemma handleLocationSelect_route captured (coords : Coordinates) (s : AppState) :
  mode captured = route ->
  let s' := handleLocationSelect exploreSelect now captured coords s in
  ((10 <= length (routePoints captured))%nat ->
     s' = setError (Some "Max 10 waypoints allowed.") s)
  /\ ((length (routePoints captured) < 10)%nat ->
     routePoints s' = (routePoints captured ++ [coords])%list
     /\ (exists m, markers s' = (markers s ++ [m])%list
                   /\ position m = coords
                   /\ index m = Some (S (length (routePoints captured))))
     /\ error s' = None).
Proof.
  intros Hmode s'. subst s'. unfold handleLocationSelect. rewrite Hmode.
  split; intros Hlen.
  - assert ((10 <=? length (routePoints captured))%nat = true) as ->
      by (apply Nat.leb_le; lia).
    apply setError_setError.
  - assert ((10 <=? length (routePoints captured))%nat = false) as ->
      by (apply Nat.leb_gt; lia).
    destruct s; simpl. repeat split.
    eexists. split; [reflexivity|]. simpl. rewrite length_app. simpl.
    split; [reflexivity|]. f_equal. lia.
Qed.

(** The same branch in the session, where the callback is
    [Session.selectOn]. *)
Lemma selectOn_route now0 captured (coords : Coordinates) (s : AppState) :
  mode captured = route ->
  (length (routePoints captured) < 10)%nat ->
  let s' := Session.selectOn now0 captured coords s in
  routePoints s' = (routePoints captured ++ [coords])%list
  /\ length (markers s') = S (length (markers s))
  /\ mode s' = mode s.
Proof.
  intros Hmode Hlen s'. subst s'. unfold Session.selectOn. rewrite Hmode.
  assert ((10 <=? length (routePoints captured))%nat = false) as ->
    by (apply Nat.leb_gt; lia).
  destruct s; cbn [routePoints markers mode setError setRoutePoints setMarkers].
  rewrite length_app. cbn [length]. repeat split. lia.
Qed.

(** Clicks below the cap add one stop and one marker each. *)
Lemma clicks_stops n (coords : Coordinates) (s : AppState) :
  mode s = route ->
  (length (routePoints s) + n <= 10)%nat ->
  mode (Scenarios.clicks n coords s) = route
  /\ routePoints (Scenarios.clicks n coords s) = (routePoints s ++ replicate n coords)%list
  /\ length (markers (Scenarios.clicks n coords s)) = (length (markers s) + n)%nat.
Proof.
  intros Hmode. induction n as [|n IH]; intros Hlen.
  - cbn [Scenarios.clicks replicate]. rewrite app_nil_r, Nat.add_0_r. auto.
  - destruct (IH ltac:(lia)) as (Hm & Hp & Hk).
    cbn [Scenarios.clicks]. cbv zeta.
    destruct (selectOn_route "1700000000000" (Scenarios.clicks n coords s) coords
                (Scenarios.clicks n coords s) Hm) as (Hp' & Hk' & Hm').
    { rewrite Hp, length_app, length_replicate. lia. }
    rewrite Hp', Hk', Hm', Hp, Hk, Hm. repeat split; [|lia].
    rewrite <- app_assoc. f_equal.
    change [coords] with (replicate 1 coords). rewrite <- replicate_add.
    f_equal. lia.
Qed.

(** The session of nine stops, and the tenth stop added while a search is
    pending. *)
Lemma nineStops_state :
  mode Scenarios.nineStops = route
  /\ routePoints Scenarios.nineStops = replicate 9 Samples.domplatz
  /\ length (markers Scenarios.nineStops) = 9%nat.
Proof.
  unfold Scenarios.nineStops.
  destruct (clicks_stops 9 Samples.domplatz (handleModeSwitch route Session.initial)
              eq_refl) as (Hm & Hp & Hk); [cbn [length routePoints]; simpl; lia|].
  auto.
Qed.

Lemma searchBegin_frame (s : AppState) :
  mode (Session.searchBegin s) = mode s
  /\ routePoints (Session.searchBegin s) = routePoints s
  /\ markers (Session.searchBegin s) = markers s.
Proof. destruct s; repeat split. Qed.

Lemma tenStops_state :
  mode Scenarios.tenStops = route
  /\ routePoints Scenarios.tenStops
     = (routePoints Scenarios.nineStops ++ [Samples.domplatz])%list
  /\ length (markers Scenarios.tenStops) = 10%nat.
Proof.
  destruct nineStops_state as (Hm & Hp & Hk).
  unfold Scenarios.tenStops, Scenarios.searching.
  generalize dependent Scenarios.nineStops. intros s Hm Hp Hk.
  destruct (searchBegin_frame s) as (Hm0 & Hp0 & Hk0).
  destruct (selectOn_route "1700000000001" (Session.searchBegin s) Samples.domplatz
              (Session.searchBegin s)) as (Hp' & Hk' & Hm').
  - rewrite Hm0. exact Hm.
  - rewrite Hp0, Hp, length_replicate. lia.
  - rewrite Hp', Hk', Hm', Hm0, Hp0, Hk0, Hk. auto.
Qed.

(** C7, on the code.  The callback checks the cap, and builds the new
    waypoints, on the [routePoints] of the render that created it.  For
    the callback of the current render this is the claim: with 10 (or
    more) waypoints only the message changes, with fewer the coordinate
    is appended to waypoints and markers.  For the callback that a
    pending search holds on to it is not: at a session of nine stops in
    which a search was submitted and a click added the tenth stop before
    the search resumed, the resumed search is not rejected although ten
    waypoints are accumulated; it puts its location in the place of the
    tenth waypoint and adds an eleventh marker, without a message. *)
Theorem C7_waypoint_cap_stale_callback :
  (forall (coords : Coordinates) (s : AppState),
     mode s = route ->
     let s' := handleLocationSelect exploreSelect now s coords s in
     ((10 <= length (routePoints s))%nat ->
        s' = setError (Some "Max 10 waypoints allowed.") s
        /\ routePoints s' = routePoints s
        /\ markers s' = markers s)
     /\ ((length (routePoints s) < 10)%nat ->
        routePoints s' = (routePoints s ++ [coords])%list
        /\ (exists m, markers s' = (markers s ++ [m])%list
                      /\ position m = coords
                      /\ index m = Some (S (length (routePoints s))))
        /\ error s' = None))
  /\ (let s' := handleLocationSelect exploreSelect now Scenarios.nineStops
                  Samples.heumarkt Scenarios.tenStops in
      mode Scenarios.tenStops = route
      /\ length (routePoints Scenarios.tenStops) = 10%nat
      /\ length (markers Scenarios.tenStops) = 10%nat
      /\ length (routePoints s') = 10%nat
      /\ routePoints s' <> routePoints Scenarios.tenStops
      /\ length (markers s') = 11%nat
      /\ error s' = None).
Proof.
  split.
  - intros coords s Hmode s'.
    destruct (handleLocationSelect_route s coords s Hmode) as [Hfull Hfree].
    fold s' in Hfull, Hfree. split; [|assumption].
    intros Hlen. rewrite (Hfull Hlen). destruct s; repeat split.
  - cbv zeta.
    destruct nineStops_state as (Hm9 & Hp9 & Hk9).
    destruct tenStops_state as (Hm10 & Hp10 & Hk10).
    destruct (handleLocationSelect_route Scenarios.nineStops Samples.heumarkt
                Scenarios.tenStops Hm9) as [_ Hfree].
    destruct Hfree as (Hpoints & (m & Hmarkers & _) & Herror);
      [rewrite Hp9, length_replicate; lia|].
    split; [assumption|]. split; [rewrite Hp10, Hp9; reflexivity|].
    split; [assumption|]. split; [rewrite Hpoints, Hp9; reflexivity|].
    split; [|split; [rewrite Hmarkers, length_app, Hk10; reflexivity|assumption]].
    rewrite Hpoints, Hp10. intros Heq. apply app_inv_head in Heq.
    injection Heq as Hlat. lra.
Qed.

(** C8, on the code.  A switch to route mode clears the street analysis
    and the highlighted segments; a switch to explore mode clears the
    waypoints and the route polyline but leaves the route street names and
    the route analysis as they were, unlike [handleClearRoute], which
    clears all four. *)
Theorem C8_mode_switch_leaves_route_results (s : AppState) :
  (analysis (handleModeSwitch route s) = None
   /\ highlightedSegments (handleModeSwitch route s) = [])
  /\ (routePoints (handleModeSwitch explore s) = []
      /\ routeCoordinates (handleModeSwitch explore s) = [])
  /\ (routeStreetNames (handleModeSwitch explore s) = routeStreetNames s
      /\ routeAnalysis (handleModeSwitch explore s) = routeAnalysis s)
  /\ (routePoints (handleClearRoute s) = []
      /\ routeCoordinates (handleClearRoute s) = []
      /\ routeStreetNames (handleClearRoute s) = []
      /\ routeAnalysis (handleClearRoute s) = None).
Proof. destruct s; repeat split. Qed.
End SessionFacts.

(** The stale route results of C8 at a concrete session: after the switch
    to explore mode the analysis and the street names of the last route are
    still in the state. *)
Lemma mode_switch_stale_route_results :
  App.routeAnalysis (App.handleModeSwitch App.explore Samples.afterRoute)
    = Some (JObj {["suitabilityScore" := JNum 80]})
  /\ App.routeStreetNames (App.handleModeSwitch App.explore Samples.afterRoute)
    = ["Hohe Strasse"]
  /\ App.routePoints (App.handleModeSwitch App.explore Samples.afterRoute) = [].
Proof. repeat split. Qed.

(** ** The route animation *)

Section AnimatorFacts.
Import Animator Memo.
Local Open Scope R_scope.

(** *** Angles and distances *)

Lemma div_nonneg a b : 0 <= a -> 0 < b -> 0 <= a / b.
Proof.
  intros Ha Hb. unfold Rdiv. apply Rmult_le_pos; [assumption|].
  apply Rlt_le, Rinv_0_lt_compat. assumption.
Qed.

Lemma atan_nonneg x : 0 <= x -> 0 <= atan x.
Proof.
  intros [Hx | <-]; [|rewrite atan_0; lra].
  apply Rlt_le. rewrite <- atan_0. apply atan_increasing. assumption.
Qed.

Lemma atan_pos x : 0 < x -> 0 < atan x.
Proof. intros Hx. rewrite <- atan_0. apply atan_increasing. assumption. Qed.

Lemma atan2_nonneg y x : 0 <= y -> 0 <= x -> 0 <= atan2 y x.
Proof.
  intros Hy Hx. pose proof PI_RGT_0 as Hpi. unfold atan2.
  destruct (Rlt_dec 0 x) as [Hpos|Hnpos].
  - apply atan_nonneg. apply div_nonneg; assumption.
  - destruct (Rlt_dec x 0); [lra|].
    destruct (Rlt_dec 0 y); [lra|].
    destruct (Rlt_dec y 0); lra.
Qed.

Lemma atan2_pos y x : 0 < y -> 0 <= x -> 0 < atan2 y x.
Proof.
  intros Hy Hx. pose proof PI_RGT_0 as Hpi. unfold atan2.
  destruct (Rlt_dec 0 x) as [Hpos|Hnpos].
  - apply atan_pos. apply Rdiv_lt_0_compat; assumption.
  - destruct (Rlt_dec x 0); [lra|].
    destruct (Rlt_dec 0 y); lra.
Qed.

Lemma atan2_0_pos x : 0 < x -> atan2 0 x = 0.
Proof.
  intros Hx. unfold atan2. destruct (Rlt_dec 0 x); [|lra].
  unfold Rdiv. rewrite Rmult_0_l. apply atan_0.
Qed.

(** The two square roots of [getDistance] are taken of numbers in [0,1]:
    the haversine [a] of two points lies between the haversines of the
    difference and of the sum of the latitudes. *)
Lemma haversine_range φ1 φ2 Δλ :
  0 <= sin ((φ2 - φ1) / 2) * sin ((φ2 - φ1) / 2)
       + cos φ1 * cos φ2 * sin (Δλ / 2) * sin (Δλ / 2) <= 1.
Proof.
  pose proof (cos_2a_sin ((φ2 - φ1) / 2)) as Hhalf.
  replace (2 * ((φ2 - φ1) / 2)) with (φ2 - φ1) in Hhalf by lra.
  pose proof (cos_minus φ2 φ1) as Hminus. pose proof (cos_plus φ2 φ1) as Hplus.
  pose proof (COS_bound (φ2 - φ1)) as [Hm1 Hm2]. pose proof (COS_bound (φ2 + φ1)) as [Hp1 Hp2].
  pose proof (SIN_bound (Δλ / 2)) as [Hs1 Hs2].
  set (u := sin (Δλ / 2) * sin (Δλ / 2)).
  assert (0 <= u <= 1) as Hu by (unfold u; split; nra).
  replace (cos φ1 * cos φ2 * sin (Δλ / 2) * sin (Δλ / 2)) with (cos φ1 * cos φ2 * u)
    by (unfold u; ring).
  set (C := cos φ1 * cos φ2) in *. set (S := sin φ1 * sin φ2) in *.
  assert (cos (φ2 - φ1) = C + S) as Hd by (rewrite Hminus; unfold C, S; ring).
  assert (cos (φ2 + φ1) = C - S) as Hs by (rewrite Hplus; unfold C, S; ring).
  assert (sin ((φ2 - φ1) / 2) * sin ((φ2 - φ1) / 2) = (1 - (C + S)) / 2) as -> by lra.
  rewrite Hd in Hm1, Hm2. rewrite Hs in Hp1, Hp2.
  split; nra.
Qed.

(** The great-circle distance is never negative. *)
Lemma getDistance_nonneg lat1 lng1 lat2 lng2 : 0 <= getDistance lat1 lng1 lat2 lng2.
Proof.
  unfold getDistance. cbv zeta.
  match goal with
  | |- 0 <= _ * (2 * atan2 ?y ?x) =>
    pose proof (atan2_nonneg y x (sqrt_pos _) (sqrt_pos _))
  end.
  lra.
Qed.

(** The distance from a point to itself is 0. *)
Lemma getDistance_same lat lng : getDistance lat lng lat lng = 0.
Proof.
  unfold getDistance, toRad. cbv zeta.
  replace ((lat - lat) * PI / 180 / 2) with 0 by lra.
  replace ((lng - lng) * PI / 180 / 2) with 0 by lra.
  match goal with
  | |- context [sqrt ?a] => replace a with 0 by (rewrite sin_0; ring)
  end.
  rewrite Rminus_0_r, sqrt_0, sqrt_1, atan2_0_pos by lra. lra.
Qed.

(** *** The remainder of the clock *)

Lemma js_rem_bounds x d : 0 <= x -> 0 < d -> 0 <= js_rem x d < d.
Proof.
  intros Hx Hd. unfold js_rem, Rtrunc.
  assert (0 <= x / d) as Hq by (apply div_nonneg; assumption).
  destruct (Rle_dec 0 (x / d)); [|lra].
  destruct (base_Int_part (x / d)) as [Hlo Hhi].
  assert (d * (x / d) = x) as Hxd by (field; lra).
  split; nra.
Qed.

Lemma js_rem_period x d : 0 <= x -> 0 < d -> js_rem (x + d) d = js_rem x d.
Proof.
  intros Hx Hd. unfold js_rem, Rtrunc.
  assert (0 <= x / d) as Hq by (apply div_nonneg; assumption).
  assert ((x + d) / d = x / d + 1) as -> by (field; lra).
  destruct (Rle_dec 0 (x / d)); [|lra].
  destruct (Rle_dec 0 (x / d + 1)); [|lra].
  destruct (base_Int_part (x / d)) as [Hlo Hhi].
  assert ((Int_part (x / d) + 1)%Z = Int_part (x / d + 1)) as <-.
  { apply Int_part_spec. rewrite plus_IZR. lra. }
  rewrite plus_IZR. lra.
Qed.

Lemma progress_of_bounds elapsed : 0 <= elapsed -> 0 <= progress_of elapsed < 1.
Proof.
  intros He. unfold progress_of, DURATION.
  destruct (js_rem_bounds elapsed 10000 He ltac:(lra)) as [Hlo Hhi].
  split; lra.
Qed.

Lemma progress_of_period elapsed :
  0 <= elapsed -> progress_of (elapsed + DURATION) = progress_of elapsed.
Proof.
  intros He. unfold progress_of, DURATION. rewrite js_rem_period by lra. reflexivity.
Qed.

(** *** The memo of cumulative distances *)

Lemma segments_loop_eq route : forall t ds,
  segments_loop route t ds =
    {| totalDist := default t (last (cumulative route t));
       dists := (ds ++ cumulative route t)%list |}.
Proof.
  induction route as [|p route IH]; intros t ds.
  - simpl. rewrite app_nil_r. reflexivity.
  - destruct route as [|q rest].
    + simpl. rewrite app_nil_r. reflexivity.
    + change (segments_loop (p :: q :: rest) t ds)
        with (segments_loop (q :: rest) (t + getDistance p.1 p.2 q.1 q.2)
                (ds ++ [t + getDistance p.1 p.2 q.1 q.2])).
      rewrite IH.
      change (cumulative (p :: q :: rest) t)
        with ((t + getDistance p.1 p.2 q.1 q.2)
                :: cumulative (q :: rest) (t + getDistance p.1 p.2 q.1 q.2)).
      set (c := cumulative (q :: rest) (t + getDistance p.1 p.2 q.1 q.2)).
      rewrite last_cons, <- app_assoc. destruct (last c); reflexivity.
Qed.

Lemma cumulative_length route : forall acc,
  length (cumulative route acc) = pred (length route).
Proof.
  induction route as [|p route IH]; intros acc; [reflexivity|].
  destruct route as [|q rest]; [reflexivity|].
  change (cumulative (p :: q :: rest) acc)
    with ((acc + getDistance p.1 p.2 q.1 q.2)
            :: cumulative (q :: rest) (acc + getDistance p.1 p.2 q.1 q.2)).
  rewrite length_cons, IH. reflexivity.
Qed.

(** Two neighbours of [dists] differ by the length of the segment between
    the two vertices at their positions. *)
Lemma cumulative_step route : forall acc i a b,
  (acc :: cumulative route acc) !! i = Some a ->
  (acc :: cumulative route acc) !! S i = Some b ->
  exists p q,
    route !! i = Some p /\ route !! S i = Some q
    /\ b = a + getDistance p.1 p.2 q.1 q.2.
Proof.
  induction route as [|p route IH]; intros acc i a b Ha Hb.
  - destruct i; discriminate.
  - destruct route as [|q rest]; [destruct i; discriminate|].
    change (cumulative (p :: q :: rest) acc)
      with ((acc + getDistance p.1 p.2 q.1 q.2)
              :: cumulative (q :: rest) (acc + getDistance p.1 p.2 q.1 q.2)) in *.
    destruct i as [|i].
    + simpl in Ha, Hb. injection Ha as <-. injection Hb as <-.
      exists p, q. repeat split.
    + destruct (IH _ i a b Ha Hb) as (p' & q' & Hp & Hq & Heq).
      exists p', q'. repeat split; assumption.
Qed.

Lemma cumulative_ascending route acc : ascending (acc :: cumulative route acc).
Proof.
  intros i a b Ha Hb.
  destruct (cumulative_step _ _ _ _ _ Ha Hb) as (p & q & _ & _ & ->).
  pose proof (getDistance_nonneg p.1 p.2 q.1 q.2). lra.
Qed.

Lemma ascending_le ds i j a b :
  ascending ds -> (i <= j)%nat -> ds !! i = Some a -> ds !! j = Some b -> a <= b.
Proof.
  intros Hasc Hij. revert b. induction Hij as [|j Hij IH]; intros b Ha Hb.
  - rewrite Ha in Hb. injection Hb as <-. lra.
  - destruct (ds !! j) as [c|] eqn:Hc.
    + specialize (IH c Ha eq_refl). specialize (Hasc j c b Hc Hb). lra.
    + apply lookup_ge_None in Hc. apply lookup_lt_Some in Hb. lia.
Qed.

(** What the guard of the effect gives: a route of at least 2 vertices,
    its cumulative distances from 0, and a total length above 0. *)
Lemma playing_inv route segs :
  playing route = Some segs ->
  (2 <= length route)%nat
  /\ dists segs = 0 :: cumulative route 0
  /\ last (dists segs) = Some (totalDist segs)
  /\ length (dists segs) = length route
  /\ 0 < totalDist segs.
Proof.
  unfold playing, segments. destruct (length route <? 2)%nat eqn:Hlen; [discriminate|].
  apply Nat.ltb_ge in Hlen. rewrite segments_loop_eq. cbn [totalDist dists].
  destruct (Req_dec_T _ 0) as [|Hne]; [discriminate|]. intros [= <-]. cbn [totalDist dists].
  assert (last ([0] ++ cumulative route 0)
          = Some (default 0 (last (cumulative route 0)))) as Hlast.
  { simpl. rewrite last_cons. destruct (last (cumulative route 0)); reflexivity. }
  repeat split; try assumption.
  - simpl. rewrite cumulative_length. lia.
  - assert (0 <= default 0 (last (cumulative route 0))) as Hge; [|lra].
    apply last_Some in Hlast as (l' & Hl').
    apply (ascending_le (0 :: cumulative route 0) 0 (length l') 0);
      [apply cumulative_ascending | lia | reflexivity |].
    change (0 :: cumulative route 0) with ([0] ++ cumulative route 0)%list.
    rewrite Hl'. rewrite lookup_app_r by lia. rewrite Nat.sub_diag. reflexivity.
Qed.

(** *** The search for the bounding segment *)

(** What the loop finds is the first position whose half-open interval
    holds the distance. *)
Lemma find_segment_sound c ds : forall k i,
  find_segment c ds k = Some i ->
  exists j a b,
    i = (k + j)%nat /\ ds !! j = Some a /\ ds !! S j = Some b /\ a <= c < b
    /\ (forall j' a' b', (j' < j)%nat -> ds !! j' = Some a' -> ds !! S j' = Some b' ->
                         ~ (a' <= c < b')).
Proof.
  induction ds as [|d0 ds IH]; intros k i Hfind; [discriminate|].
  destruct ds as [|d1 rest]; [discriminate|].
  assert (find_segment c (d1 :: rest) (S k) = Some i ->
          ~ (d0 <= c < d1) ->
          exists j a b,
            i = (k + j)%nat /\ (d0 :: d1 :: rest) !! j = Some a
            /\ (d0 :: d1 :: rest) !! S j = Some b /\ a <= c < b
            /\ (forall j' a' b', (j' < j)%nat -> (d0 :: d1 :: rest) !! j' = Some a' ->
                   (d0 :: d1 :: rest) !! S j' = Some b' -> ~ (a' <= c < b'))) as Hrec.
  { intros Hnext Hnot. destruct (IH _ _ Hnext) as (j & a & b & -> & Ha & Hb & Hin & Hfirst).
    exists (S j), a, b. repeat split; try assumption; try lia; try apply Hin.
    intros j' a' b' Hlt Ha' Hb'. destruct j' as [|j'].
    - simpl in Ha', Hb'. injection Ha' as <-. injection Hb' as <-. assumption.
    - apply (Hfirst j' a' b'); [lia|assumption|assumption]. }
  change (find_segment c (d0 :: d1 :: rest) k)
    with (if Rge_dec c d0 then
            if Rlt_dec c d1 then Some k else find_segment c (d1 :: rest) (S k)
          else find_segment c (d1 :: rest) (S k)) in Hfind.
  destruct (Rge_dec c d0) as [Hge|Hnge].
  - destruct (Rlt_dec c d1) as [Hlt|Hnlt].
    + injection Hfind as <-. exists 0%nat, d0, d1.
      repeat split; try reflexivity; try lra; try lia.
    + apply Hrec; [assumption|lra].
  - apply Hrec; [assumption|lra].
Qed.

(** A distance from the first element of the list on and below the last is
    found. *)
Lemma find_segment_complete c ds : forall k d0 dl,
  ds !! 0%nat = Some d0 -> last ds = Some dl -> d0 <= c < dl ->
  exists i, find_segment c ds k = Some i.
Proof.
  induction ds as [|d ds IH]; intros k d0 dl H0 Hlast Hin; [discriminate|].
  simpl in H0. injection H0 as ->.
  destruct ds as [|d1 rest].
  - simpl in Hlast. injection Hlast as ->. lra.
  - change (find_segment c (d0 :: d1 :: rest) k)
      with (if Rge_dec c d0 then
              if Rlt_dec c d1 then Some k else find_segment c (d1 :: rest) (S k)
            else find_segment c (d1 :: rest) (S k)).
    rewrite last_cons_cons in Hlast.
    destruct (Rge_dec c d0) as [Hge|Hnge]; [|lra].
    destruct (Rlt_dec c d1) as [Hlt|Hnlt]; [eexists; reflexivity|].
    apply (IH (S k) d1 dl); [reflexivity|assumption|lra].
Qed.

(** *** The frame *)

(** The interpolation of [animate] on the segment from [p1] to [p2] that
    spans the cumulative distances [d0] to [d1]. *)
Local Abbreviation interpolated p1 p2 d0 d1 c :=
  {| frame_lat := p1.1 + (p2.1 - p1.1) * ((c - d0) / (d1 - d0));
     frame_lng := p1.2 + (p2.2 - p1.2) * ((c - d0) / (d1 - d0));
     frame_bearing := getBearing p1.1 p1.2 p2.1 p2.2 |}.

(** For a distance within the path the search selects a segment, the first
    whose interval holds the distance, and the frame is the interpolation
    on it. *)
Lemma frame_at_located route segs c :
  playing route = Some segs ->
  0 <= c < totalDist segs ->
  exists i d0 d1 p1 p2,
    find_segment c (dists segs) 0 = Some i
    /\ dists segs !! i = Some d0 /\ dists segs !! S i = Some d1
    /\ route !! i = Some p1 /\ route !! S i = Some p2
    /\ d0 <= c < d1
    /\ d1 = d0 + getDistance p1.1 p1.2 p2.1 p2.2
    /\ (forall j a b, (j < i)%nat -> dists segs !! j = Some a ->
                      dists segs !! S j = Some b -> ~ (a <= c < b))
    /\ frame_at route segs c = Some (interpolated p1 p2 d0 d1 c).
Proof.
  intros Hplay Hc. destruct (playing_inv _ _ Hplay) as (Hlen & Hds & Hlast & Hdl & Hpos).
  destruct (find_segment_complete c (dists segs) 0 0 (totalDist segs)) as (i & Hfind);
    [rewrite Hds; reflexivity | assumption | assumption |].
  destruct (find_segment_sound _ _ _ _ Hfind) as (j & d0 & d1 & Hij & Hd0 & Hd1 & Hin & Hfirst).
  simpl in Hij. subst j.
  pose proof Hd0 as Hd0'. pose proof Hd1 as Hd1'. rewrite Hds in Hd0', Hd1'.
  destruct (cumulative_step _ _ _ _ _ Hd0' Hd1') as (p1 & p2 & Hp1 & Hp2 & Hstep).
  exists i, d0, d1, p1, p2. repeat split; try assumption; try apply Hin.
  unfold frame_at, segment_index. rewrite Hfind. cbv zeta.
  change (default 0%nat (Some i)) with i.
  rewrite Hd0, Hd1, Hp1, Hp2. reflexivity.
Qed.


(** *** The frame on a memo, whatever filled it *)












(** *** The clock *)





(** C10.  Whenever a frame is computed (the effect runs only for a route
    of at least 2 vertices with a total length other than 0, and the clock
    does not run backwards), the search selects a segment, and only one
    whose half-open interval of cumulative distances holds the current
    distance: its length, the divisor of the interpolation, is above 0, so
    a segment between two vertices at distance 0 is never selected, and
    the frame is the interpolation on the selected segment. *)
Theorem C10_selected_segment_positive route segs startTimeRef time :
  playing route = Some segs ->
  startTimeRef <= time ->
  exists start i d0 d1 p1 p2,
    start = (if Req_dec_T startTimeRef 0 then time else startTimeRef)
    /\ let currentDist := progress_of (time - start) * totalDist segs in
       find_segment currentDist (dists segs) 0 = Some i
       /\ dists segs !! i = Some d0 /\ dists segs !! S i = Some d1
       /\ route !! i = Some p1 /\ route !! S i = Some p2
       /\ d0 <= currentDist < d1
       /\ 0 < d1 - d0
       /\ d1 - d0 = getDistance p1.1 p1.2 p2.1 p2.2
       /\ animate route segs startTimeRef time =
            (start, Some (interpolated p1 p2 d0 d1 currentDist)).
Proof.
  intros Hplay Htime.
  destruct (playing_inv _ _ Hplay) as (_ & _ & _ & _ & Hpos).
  set (start := if Req_dec_T startTimeRef 0 then time else startTimeRef).
  assert (0 <= time - start) as Hel by (unfold start; destruct (Req_dec_T startTimeRef 0); lra).
  destruct (progress_of_bounds _ Hel) as [Hlo Hhi].
  destruct (frame_at_located route segs (progress_of (time - start) * totalDist segs) Hplay)
    as (i & d0 & d1 & p1 & p2 & Hfind & Hd0 & Hd1 & Hp1 & Hp2 & Hin & Hstep & _ & Hframe);
    [split; nra|].
  exists start, i, d0, d1, p1, p2. split; [reflexivity|]. cbv zeta.
  repeat split; try assumption; try apply Hin; try lra.
  unfold animate. fold start. rewrite Hframe. reflexivity.
Qed.


(** *** Two routes *)

Lemma sin_quarter_pos : 0 < sin (PI / 4).
Proof. pose proof PI_RGT_0. apply sin_gt_0; lra. Qed.

(** Two points a quarter turn of latitude apart, one of them a pole or
    both on one meridian, are at a positive distance. *)
Lemma getDistance_quarter lat1 lng1 lat2 lng2 :
  lat2 - lat1 = 90 \/ lat2 - lat1 = -90 ->
  cos (toRad lat1) = 0 \/ cos (toRad lat2) = 0 \/ lng2 - lng1 = 0 ->
  0 < getDistance lat1 lng1 lat2 lng2.
Proof.
  intros Hq Hzero. unfold getDistance. cbv zeta.
  assert (sin (toRad (lat2 - lat1) / 2) * sin (toRad (lat2 - lat1) / 2)
          = sin (PI / 4) * sin (PI / 4)) as Hsq.
  { destruct Hq as [-> | ->]; unfold toRad.
    - replace (90 * PI / 180 / 2) with (PI / 4) by lra. reflexivity.
    - replace (-90 * PI / 180 / 2) with (- (PI / 4)) by lra. rewrite sin_neg. ring. }
  assert (cos (toRad lat1) * cos (toRad lat2) * sin (toRad (lng2 - lng1) / 2)
            * sin (toRad (lng2 - lng1) / 2) = 0) as Hrest.
  { destruct Hzero as [-> | [-> | ->]]; try ring.
    replace (toRad 0 / 2) with 0 by (unfold toRad; lra). rewrite sin_0. ring. }
  rewrite Hsq, Hrest, Rplus_0_r.
  pose proof sin_quarter_pos as Hs.
  assert (0 < sin (PI / 4) * sin (PI / 4)) as Ha by nra.
  pose proof (atan2_pos _ (sqrt (1 - sin (PI / 4) * sin (PI / 4)))
                (sqrt_lt_R0 _ Ha) (sqrt_pos _)).
  lra.
Qed.




Lemma playing_intro route :
  (2 <= length route)%nat ->
  totalDist (segments_loop route 0 [0]) <> 0 ->
  playing route = Some (segments_loop route 0 [0]).
Proof.
  intros Hlen Hne. unfold playing, segments.
  assert ((length route <? 2)%nat = false) as -> by (apply Nat.ltb_ge; lia).
  destruct (Req_dec_T _ 0); [contradiction|reflexivity].
Qed.

Lemma stutter_playing :
  playing Samples.stutter = Some (segments_loop Samples.stutter 0 [0]).
Proof.
  apply playing_intro; [simpl; lia|].
  simpl. rewrite getDistance_same.
  pose proof (getDistance_quarter 0 0 90 0 ltac:(lra) ltac:(lra)).
  lra.
Qed.


End AnimatorFacts.

Lemma C10_selected_segment_positive_witness :
  exists f,
    Animator.animate Samples.stutter (Animator.segments_loop Samples.stutter 0 [0%R]) 0 0
    = (0%R, Some f).
Proof.
  destruct (C10_selected_segment_positive Samples.stutter _ 0 0 stutter_playing (Rle_refl 0))
    as (start & i & d0 & d1 & p1 & p2 & Hstart & _ & _ & _ & _ & _ & _ & _ & _ & Hanimate).
  eexists. rewrite Hanimate. rewrite Hstart.
  destruct (Req_dec_T 0 0); reflexivity.
Defined.



(** * Further properties of the code *)

(** ** Bearings, distances and the animation *)

Section AnimatorMore.
Import Animator.
Local Open Scope R_scope.

Lemma atan_nonpos x : x <= 0 -> atan x <= 0.
Proof.
  intros [Hx | ->]; [|rewrite atan_0; lra].
  apply Rlt_le. rewrite <- atan_0. apply atan_increasing. assumption.
Qed.

(** [Math.atan2] gives an angle in (-PI, PI]. *)
Lemma atan2_range y x : - PI < atan2 y x <= PI.
Proof.
  pose proof PI_RGT_0 as Hpi. unfold atan2.
  destruct (Rlt_dec 0 x) as [Hpos|Hnpos].
  - destruct (atan_bound (y / x)). lra.
  - destruct (Rlt_dec x 0) as [Hneg|Hnneg].
    + pose proof (Rinv_lt_0_compat x Hneg) as Hinv.
      destruct (atan_bound (y / x)) as [Hlo Hhi].
      destruct (Rle_dec 0 y) as [Hy|Hy].
      * assert (y / x <= 0) as Hq by (unfold Rdiv; nra).
        pose proof (atan_nonpos _ Hq). lra.
      * assert (0 < y / x) as Hq by (unfold Rdiv; nra).
        pose proof (atan_pos _ Hq). lra.
    + destruct (Rlt_dec 0 y); [lra|]. destruct (Rlt_dec y 0); lra.
Qed.

(** The bearing is an angle in degrees from 0 on and below 360, for every
    pair of coordinates. *)
Theorem getBearing_range lat1 lng1 lat2 lng2 :
  0 <= getBearing lat1 lng1 lat2 lng2 < 360.
Proof.
  unfold getBearing. cbv zeta.
  match goal with
  | |- _ <= js_rem (toDeg (atan2 ?y ?x) + 360) 360 < _ =>
    pose proof (atan2_range y x) as [Hlo Hhi]; set (a := atan2 y x) in *
  end.
  pose proof PI_RGT_0 as Hpi.
  apply js_rem_bounds; [|lra].
  unfold toDeg.
  assert (a * 180 / PI = a / PI * 180) as -> by (field; lra).
  assert (-1 < a / PI).
  { apply (Rmult_lt_reg_r PI); [assumption|].
    replace (a / PI * PI) with a by (field; lra). lra. }
  lra.
Qed.


(** Every frame lies on its segment: the position is between the two ends
    of a segment of the route, in latitude and in longitude, and the
    bearing is the bearing of that segment. *)
Theorem animate_within_segment route segs startTimeRef time :
  playing route = Some segs ->
  startTimeRef <= time ->
  exists f i p1 p2,
    (animate route segs startTimeRef time).2 = Some f
    /\ route !! i = Some p1 /\ route !! S i = Some p2
    /\ (p1.1 <= frame_lat f <= p2.1 \/ p2.1 <= frame_lat f <= p1.1)
    /\ (p1.2 <= frame_lng f <= p2.2 \/ p2.2 <= frame_lng f <= p1.2)
    /\ frame_bearing f = getBearing p1.1 p1.2 p2.1 p2.2.
Proof.
  intros Hplay Htime.
  destruct (playing_inv _ _ Hplay) as (_ & _ & _ & _ & Hpos).
  set (start := if Req_dec_T startTimeRef 0 then time else startTimeRef).
  assert (0 <= time - start) as Hel by (unfold start; destruct (Req_dec_T startTimeRef 0); lra).
  destruct (progress_of_bounds _ Hel) as [Hlo Hhi].
  destruct (frame_at_located route segs (progress_of (time - start) * totalDist segs) Hplay)
    as (i & d0 & d1 & p1 & p2 & _ & _ & _ & Hp1 & Hp2 & Hin & _ & _ & Hframe);
    [split; nra|].
  eexists. exists i, p1, p2. unfold animate. fold start. cbn [snd].
  split; [exact Hframe|]. cbn [frame_lat frame_lng frame_bearing].
  set (t := (progress_of (time - start) * totalDist segs - d0) / (d1 - d0)).
  assert (0 <= t <= 1) as Ht.
  { unfold t. split; [apply div_nonneg; lra|].
    apply (Rmult_le_reg_r (d1 - d0)); [lra|].
    replace ((progress_of (time - start) * totalDist segs - d0) / (d1 - d0) * (d1 - d0))
      with (progress_of (time - start) * totalDist segs - d0) by (field; lra).
    lra. }
  repeat split; try assumption.
  - destruct (Rle_dec p1.1 p2.1); [left|right]; split; nra.
  - destruct (Rle_dec p1.2 p2.2); [left|right]; split; nra.
Qed.

(** Once started, the animation repeats every [DURATION] milliseconds:
    the frame and the ref are the same one cycle later. *)
Theorem animate_periodic route segs startTimeRef time :
  startTimeRef <> 0 ->
  startTimeRef <= time ->
  animate route segs startTimeRef (time + DURATION) = animate route segs startTimeRef time.
Proof.
  intros Hne Htime. unfold animate.
  destruct (Req_dec_T startTimeRef 0); [contradiction|].
  replace (time + DURATION - startTimeRef) with (time - startTimeRef + DURATION) by lra.
  rewrite progress_of_period by lra. reflexivity.
Qed.
End AnimatorMore.


Lemma animate_within_segment_witness :
  exists f, (Animator.animate Samples.stutter
               (Animator.segments_loop Samples.stutter 0 [0%R]) 5 20).2 = Some f.
Proof.
  destruct (animate_within_segment Samples.stutter _ 5 20 stutter_playing ltac:(lra))
    as (f & i & p1 & p2 & Hf & _).
  exists f. exact Hf.
Defined.

Lemma animate_periodic_witness :
  Animator.animate Samples.stutter (Animator.segments_loop Samples.stutter 0 [0%R])
    5 (20 + Animator.DURATION)
  = Animator.animate Samples.stutter (Animator.segments_loop Samples.stutter 0 [0%R]) 5 20.
Proof.
  apply (animate_periodic Samples.stutter _ 5 20); lra.
Defined.

(** ** The computed route *)

Section RouteMore.
Import Routing.

Lemma Set_add_NoDup acc n : NoDup acc -> NoDup (Set_add acc n).
Proof.
  intros Hnd. unfold Set_add. destruct (decide (n ∈ acc)); [assumption|].
  apply NoDup_app. repeat split; [assumption| |apply NoDup_singleton].
  intros x Hx Hx'. apply list_elem_of_singleton in Hx'. subst. contradiction.
Qed.

Lemma Set_add_elem acc n x : x ∈ Set_add acc n <-> x ∈ acc \/ x = n.
Proof.
  unfold Set_add. destruct (decide (n ∈ acc)) as [Hin|Hin].
  - split; [auto|]. intros [H | ->]; assumption.
  - rewrite elem_of_app, list_elem_of_singleton. reflexivity.
Qed.

Lemma nonempty_length (n : string) : (0 <? String.length n)%nat = true <-> n <> "".
Proof.
  destruct n; simpl; split; intros H; try discriminate; try reflexivity; congruence.
Qed.

(** The inner [forEach], over the steps of one leg. *)
Lemma collect_steps sts : forall acc,
  NoDup acc ->
  let result :=
    foldl (fun acc step =>
             match step_name step with
             | Some n => if (0 <? String.length n)%nat then Set_add acc n else acc
             | None => acc
             end) acc sts in
  NoDup result
  /\ forall x, x ∈ result <->
               x ∈ acc \/ (x <> "" /\ exists step, step ∈ sts /\ step_name step = Some x).
Proof.
  induction sts as [|st sts IH]; intros acc Hnd; cbn [foldl].
  - split; [assumption|]. intros x. split; [auto|].
    intros [H | (_ & step & Hin & _)]; [assumption|]. inversion Hin.
  - destruct (step_name st) as [n|] eqn:Hn;
      [destruct (0 <? String.length n)%nat eqn:Hlen|].
    + destruct (IH (Set_add acc n) (Set_add_NoDup _ _ Hnd)) as [Hnd' Hel].
      split; [assumption|]. intros x. rewrite Hel, Set_add_elem.
      apply nonempty_length in Hlen. split.
      * intros [[H | ->] | (Hne & step & Hin & Hs)]; auto.
        -- right. split; [assumption|]. exists st. split; [left|assumption].
        -- right. split; [assumption|]. exists step. split; [right|]; assumption.
      * intros [H | (Hne & step & Hin & Hs)]; auto.
        apply elem_of_cons in Hin as [-> | Hin].
        -- left. right. congruence.
        -- right. split; [assumption|]. exists step. auto.
    + destruct (IH acc Hnd) as [Hnd' Hel]. split; [assumption|].
      intros x. rewrite Hel. split.
      * intros [H | (Hne & step & Hin & Hs)]; auto.
        right. split; [assumption|]. exists step. split; [right|]; assumption.
      * intros [H | (Hne & step & Hin & Hs)]; auto.
        apply elem_of_cons in Hin as [-> | Hin].
        -- exfalso. rewrite Hn in Hs. injection Hs as ->.
           assert ((0 <? String.length x)%nat = true) by (apply nonempty_length; assumption).
           congruence.
        -- right. split; [assumption|]. exists step. auto.
    + destruct (IH acc Hnd) as [Hnd' Hel]. split; [assumption|].
      intros x. rewrite Hel. split.
      * intros [H | (Hne & step & Hin & Hs)]; auto.
        right. split; [assumption|]. exists step. split; [right|]; assumption.
      * intros [H | (Hne & step & Hin & Hs)]; auto.
        apply elem_of_cons in Hin as [-> | Hin]; [congruence|].
        right. split; [assumption|]. exists step. auto.
Qed.

(** The outer [forEach], over the legs. *)
Lemma collect_legs lgs : forall acc,
  NoDup acc ->
  let result :=
    foldl (fun acc leg =>
      foldl (fun acc step =>
               match step_name step with
               | Some n => if (0 <? String.length n)%nat then Set_add acc n else acc
               | None => acc
               end) acc (steps leg)) acc lgs in
  NoDup result
  /\ forall x, x ∈ result <->
               x ∈ acc \/ (x <> "" /\ exists leg step,
                             leg ∈ lgs /\ step ∈ steps leg /\ step_name step = Some x).
Proof.
  induction lgs as [|lg lgs IH]; intros acc Hnd; cbn [foldl].
  - split; [assumption|]. intros x. split; [auto|].
    intros [H | (_ & leg & step & Hin & _)]; [assumption|]. inversion Hin.
  - destruct (collect_steps (steps lg) acc Hnd) as [Hnd1 Hel1].
    destruct (IH _ Hnd1) as [Hnd2 Hel2]. split; [assumption|].
    intros x. rewrite Hel2, Hel1. split.
    + intros [[H | (Hne & step & Hin & Hs)] | (Hne & leg & step & Hl & Hin & Hs)]; auto.
      * right. split; [assumption|]. exists lg, step. split; [left|]; auto.
      * right. split; [assumption|]. exists leg, step. split; [right|]; auto.
    + intros [H | (Hne & leg & step & Hl & Hin & Hs)]; auto.
      apply elem_of_cons in Hl as [-> | Hl].
      * left. right. split; [assumption|]. exists step. auto.
      * right. split; [assumption|]. exists leg, step. auto.
Qed.

(** The street names of a route: no name twice, no empty name, and
    exactly the names that some step of some leg carries. *)
Theorem collectStreetNames_set (r : Route) :
  NoDup (collectStreetNames r)
  /\ forall x, x ∈ collectStreetNames r <->
               x <> "" /\ exists leg step,
                 leg ∈ legs r /\ step ∈ steps leg /\ step_name step = Some x.
Proof.
  destruct (collect_legs (legs r) [] (NoDup_nil_2 (A:=string))) as [Hnd Hel].
  split; [exact Hnd|]. intros x. unfold collectStreetNames. rewrite Hel.
  split; [|auto]. intros [H | H]; [inversion H|assumption].
Qed.

Variable fetch : list (R * R) -> Outcome Response.

(** With at least 2 points, an [ok] response, the code [Ok] and a first
    route, the call returns; the result is read off the first route: its
    coordinates are those of the geometry with the two components
    exchanged, one for one, and exchanging them again gives the geometry
    back. *)
Theorem calculateRoute_success (points : list Coordinates) response data route rest :
  (2 <= length points)%nat ->
  fetch (map (fun p => (lng p, lat p)) points) = Resolved response ->
  ok response = true ->
  json response = Resolved data ->
  osrm_code data = "Ok" ->
  routes data = Some (route :: rest) ->
  exists result,
    calculateRoute fetch points =
      ([EvFetch (map (fun p => (lng p, lat p)) points)], Returned result)
    /\ length (coordinates result) = length (geometry_coordinates route)
    /\ (forall i lon_ lat_,
          geometry_coordinates route !! i = Some (lon_, lat_) ->
          coordinates result !! i = Some (lat_, lon_))
    /\ map (fun c => (c.2, c.1)) (coordinates result) = geometry result
    /\ streetNames result = collectStreetNames route
    /\ duration result = route_duration route
    /\ distance result = route_distance route.
Proof.
  intros Hlen Hfetch Hok Hjson Hcode Hroutes. eexists. unfold calculateRoute.
  assert ((length points <? 2)%nat = false) as -> by (apply Nat.ltb_ge; lia).
  rewrite Hfetch. cbn [await mbind Completion_bind]. unfold readRoute.
  rewrite Hok, Hjson. cbn [negb await mbind Completion_bind].
  rewrite Hcode, Hroutes. cbn.
  split; [reflexivity|]. cbn [coordinates geometry streetNames duration distance].
  repeat split.
  - apply length_map.
  - intros i lon_ lat_ Hi. rewrite list_lookup_fmap, Hi. reflexivity.
  - rewrite map_map. rewrite <- (map_id (geometry_coordinates route)) at 2.
    apply map_ext. intros [a b]. reflexivity.
Qed.
End RouteMore.

Lemma calculateRoute_success_witness :
  exists result,
    Routing.calculateRoute
      (fun _ => Resolved
         {| Routing.ok := true; Routing.statusText := "OK";
            Routing.json := Resolved
              {| Routing.osrm_code := "Ok";
                 Routing.routes := Some
                   [ {| Routing.geometry_coordinates := [(7, 50); (7, 51)]%R;
                        Routing.legs := [];
                        Routing.route_duration := 60; Routing.route_distance := 1000 |} ] |} |})
      [Samples.domplatz; Samples.heumarkt]
    = ([Routing.EvFetch [(7, 50); (7, 51)]%R], Returned result)
    /\ Routing.coordinates result = [(50, 7); (51, 7)]%R.
Proof.
  destruct (calculateRoute_success
              (fun _ => Resolved
                 {| Routing.ok := true; Routing.statusText := "OK";
                    Routing.json := Resolved
                      {| Routing.osrm_code := "Ok";
                         Routing.routes := Some
                           [ {| Routing.geometry_coordinates := [(7, 50); (7, 51)]%R;
                                Routing.legs := [];
                                Routing.route_duration := 60;
                                Routing.route_distance := 1000 |} ] |} |})
              [Samples.domplatz; Samples.heumarkt] _ _ _ _
              ltac:(simpl; lia) eq_refl eq_refl eq_refl eq_refl eq_refl)
    as (result & Heq & Hlen & Hswap & _).
  exists result. split; [exact Heq|].
  pose proof (Hswap 0%nat _ _ eq_refl) as H0. pose proof (Hswap 1%nat _ _ eq_refl) as H1.
  destruct (Routing.coordinates result) as [|c0 [|c1 [|c2 cs]]]; simpl in *; try discriminate.
  congruence.
Defined.

(** ** The generative service *)

Section BackoffFacts.
Import Gemini Backoff.
Context {T : Type}.
Variable operation : nat -> Outcome T.
Variable maxRetries : Z.
Variable baseDelay : Z.

Lemma retry_loop_waited fuel : forall a last,
  0 <= baseDelay ->
  Z.of_nat a <= maxRetries ->
  0 <= waited (retry_loop operation maxRetries baseDelay fuel a last).1
    <= baseDelay * (2 ^ maxRetries - 2 ^ Z.of_nat a).
Proof.
  induction fuel as [|fuel IH]; intros a last Hb Ha.
  - simpl. pose proof (Z.pow_le_mono_r 2 (Z.of_nat a) maxRetries ltac:(lia) Ha). nia.
  - pose proof (Z.pow_le_mono_r 2 (Z.of_nat a) maxRetries ltac:(lia) Ha) as Hpow.
    simpl. destruct (Z.of_nat a <=? maxRetries); [|simpl; nia].
    destruct (operation a) as [t|e]; [simpl; nia|].
    destruct (isRateLimit e && (Z.of_nat a <? maxRetries)) eqn:Hcond; [|simpl; nia].
    apply andb_prop in Hcond as [_ Hlt]. apply Z.ltb_lt in Hlt.
    specialize (IH (S a) (ThrowError e) Hb ltac:(lia)).
    destruct (retry_loop operation maxRetries baseDelay fuel (S a) (ThrowError e)) as [tr r].
    cbn [fst waited] in *.
    replace (Z.of_nat (S a)) with (Z.of_nat a + 1) in IH by lia.
    rewrite Z.pow_add_r in IH by lia. change (2 ^ 1) with 2 in IH.
    assert (0 < 2 ^ Z.of_nat a) by (apply Z.pow_pos_nonneg; lia).
    nia.
Qed.

Lemma waited_app tr1 tr2 : waited (tr1 ++ tr2) = waited tr1 + waited tr2.
Proof.
  induction tr1 as [|[n|ms] tr1 IH]; simpl; [reflexivity|assumption|lia].
Qed.

Lemma waited_backoff k : forall a,
  waited (backoff baseDelay a k) = baseDelay * (2 ^ Z.of_nat (a + k) - 2 ^ Z.of_nat a).
Proof.
  induction k as [|k IH]; intros a; simpl.
  - rewrite Nat.add_0_r. lia.
  - rewrite IH. replace (a + S k)%nat with (S a + k)%nat by lia.
    replace (Z.of_nat (S a)) with (Z.of_nat a + 1) by lia.
    rewrite (Z.pow_add_r 2 (Z.of_nat a) 1) by lia. change (2 ^ 1) with 2. lia.
Qed.

(** The wrapper never waits longer, all waits of a call together, than
    [baseDelay * (2^maxRetries - 1)] milliseconds, and it waits exactly
    that long when every attempt is rate limited. *)
Theorem retry_total_wait :
  0 <= maxRetries ->
  0 <= baseDelay ->
  0 <= waited (retryGeminiCall operation maxRetries baseDelay).1
    <= baseDelay * (2 ^ maxRetries - 1)
  /\ (limited_before operation (S (Z.to_nat maxRetries)) ->
      waited (retryGeminiCall operation maxRetries baseDelay).1
      = baseDelay * (2 ^ maxRetries - 1)).
Proof.
  intros Hmax Hb. split.
  - pose proof (retry_loop_waited (Z.to_nat (maxRetries + 1)) 0 ThrowUndefined Hb ltac:(lia)) as H.
    change (2 ^ Z.of_nat 0) with 1 in H. exact H.
  - intros Hlim.
    destruct (Hlim (Z.to_nat maxRetries) ltac:(lia)) as (e & Hop & Hrl).
    rewrite (retryGeminiCall_stops_at operation maxRetries baseDelay
               (Z.to_nat maxRetries) (Threw (ThrowError e))).
    + cbn [fst]. rewrite waited_app, waited_backoff. simpl.
      rewrite Z2Nat.id by lia. change (2 ^ 0) with 1. lia.
    + lia.
    + intros j Hj. apply Hlim. lia.
    + intros fuel last. apply retry_loop_throw; [lia|assumption|right; lia].
Qed.
End BackoffFacts.

Lemma retry_total_wait_witness :
  0 <= Backoff.waited
         (Gemini.retryGeminiCall (fun _ => Rejected Samples.quotaError : Outcome unit) 2 2000).1
    <= 6000.
Proof.
  apply (retry_total_wait (fun _ => Rejected Samples.quotaError : Outcome unit) 2 2000); lia.
Defined.

Section RouteLogisticsFacts.
Import Gemini RouteLogistics.
Variable generateContent : RoutePrompt -> nat -> Outcome GenerateContentResponse.
Variable JSON_parse : string -> Outcome JValue.

Local Abbreviation analyzeRoute := (analyzeRouteLogistics generateContent JSON_parse).
Local Abbreviation routeCall vehicleType streetNames :=
  (retryGeminiCall
     (generateContent {| rp_vehicleType := vehicleType;
                         rp_streets := String.concat ", " streetNames |}) 4 2500).

(** The route analysis returns on every input.  When the wrapped call
    throws, the result is the degraded object (score 50, suitable, one
    warning) for a rate limit and the failed object (score 0, unsuitable,
    one warning) otherwise; when the call gives a text that parses, the
    parsed value is the result as it is, whatever it is; an empty or
    missing text and a text that does not parse give a fallback too. *)
Theorem analyzeRouteLogistics_returns vehicleType streetNames :
  (exists analysis, (analyzeRoute vehicleType streetNames).2 = Returned analysis)
  /\ (forall tr e,
        routeCall vehicleType streetNames = (tr, Threw (ThrowError e)) ->
        analyzeRoute vehicleType streetNames =
          (tr, Returned (JObj (if isRateLimit e then degradedRoute else failedRoute))))
  /\ (forall tr response txt data,
        routeCall vehicleType streetNames = (tr, Returned response) ->
        text response = Some txt -> txt <> "" ->
        JSON_parse txt = Resolved data ->
        analyzeRoute vehicleType streetNames = (tr, Returned data))
  /\ (forall tr response,
        routeCall vehicleType streetNames = (tr, Returned response) ->
        text response = None \/ text response = Some "" ->
        analyzeRoute vehicleType streetNames = (tr, Returned (JObj failedRoute)))
  /\ degradedRoute !! "suitabilityScore" = Some (JNum 50)
  /\ degradedRoute !! "isRouteSuitable" = Some (JBool true)
  /\ failedRoute !! "suitabilityScore" = Some (JNum 0)
  /\ failedRoute !! "isRouteSuitable" = Some (JBool false).
Proof.
  pose proof (retryGeminiCall_not_undefined
                (generateContent {| rp_vehicleType := vehicleType;
                                    rp_streets := String.concat ", " streetNames |})
                4 2500 ltac:(lia)) as Hdef.
  assert (forall e, exists v, routeFallback (ThrowError e) = Returned v) as Hfb.
  { intros e. simpl. destruct (isRateLimit e); eexists; reflexivity. }
  split; [|split; [|split; [|split; [|repeat split]]]].
  - unfold analyzeRouteLogistics.
    destruct (retryGeminiCall _ 4 2500) as [tr [response|x]]; cbn [snd mbind Completion_bind] in *.
    + unfold routeText. destruct (text response) as [t|];
        [destruct (negb (String.eqb t ""))|]; cbn [mbind Completion_bind]; try apply Hfb.
      destruct (JSON_parse t) as [data|e]; cbn [await]; [eexists; reflexivity|apply Hfb].
    + destruct x as [|e]; [congruence|apply Hfb].
  - intros tr e Hcall. unfold analyzeRouteLogistics. rewrite Hcall.
    cbn [mbind Completion_bind routeFallback]. destruct (isRateLimit e); reflexivity.
  - intros tr response txt data Hcall Htxt Hne Hparse.
    unfold analyzeRouteLogistics. rewrite Hcall. cbn [mbind Completion_bind].
    unfold routeText. rewrite Htxt.
    apply String.eqb_neq in Hne. rewrite Hne. cbn [negb mbind Completion_bind].
    rewrite Hparse. reflexivity.
  - intros tr response Hcall Htxt.
    unfold analyzeRouteLogistics. rewrite Hcall. cbn [mbind Completion_bind].
    unfold routeText. destruct Htxt as [-> | ->]; reflexivity.
Qed.
End RouteLogisticsFacts.

Lemma analyzeRouteLogistics_returns_witness :
  RouteLogistics.analyzeRouteLogistics (fun _ _ => Rejected Samples.networkError)
    (Samples.parsesTo JNull) Gemini.LKW_HEAVY ["Hohe Strasse"; "Schildergasse"]
  = ([Gemini.EvCall 0], Returned (JObj RouteLogistics.failedRoute))
  /\ RouteLogistics.analyzeRouteLogistics
       (fun _ _ => Resolved {| Gemini.text := Some "null" |})
       (Samples.parsesTo JNull) Gemini.LKW_HEAVY ["Hohe Strasse"]
     = ([Gemini.EvCall 0], Returned JNull).
Proof.
  split.
  - destruct (analyzeRouteLogistics_returns (fun _ _ => Rejected Samples.networkError)
                (Samples.parsesTo JNull) Gemini.LKW_HEAVY ["Hohe Strasse"; "Schildergasse"])
      as (_ & Hthrow & _).
    apply (Hthrow _ Samples.networkError). reflexivity.
  - destruct (analyzeRouteLogistics_returns
                (fun _ _ => Resolved {| Gemini.text := Some "null" |})
                (Samples.parsesTo JNull) Gemini.LKW_HEAVY ["Hohe Strasse"])
      as (_ & _ & Hparse & _).
    apply (Hparse _ {| Gemini.text := Some "null" |} "null" JNull); try reflexivity.
    discriminate.
Defined.

Section LiveTrafficFacts.
Import Gemini LiveTraffic.
Variable generateContent : string -> nat -> Outcome GroundedResponse.
Variable now : string.

(** The source of a chunk, if it has a [web]. *)
Local Abbreviation sourceOf :=
  (fun chunk : GroundingChunk =>
     match web chunk with
     | Some w => Some {| source_title := str_or (title w) "Source"; source_uri := uri w |}
     | None => None
     end).

Lemma collectSources_omap chunks :
  collectSources chunks = omap sourceOf chunks.
Proof.
  unfold collectSources.
  assert (forall acc,
             foldl (fun sources chunk =>
                      match web chunk with
                      | Some w =>
                        (sources ++ [ {| source_title := str_or (title w) "Source";
                                         source_uri := uri w |} ])%list
                      | None => sources
                      end) acc chunks
             = (acc ++ omap sourceOf chunks)%list) as H.
  { induction chunks as [|c chunks IH]; intros acc; cbn [foldl omap list_omap].
    - rewrite app_nil_r. reflexivity.
    - rewrite IH. destruct (web c); [rewrite <- app_assoc|]; reflexivity. }
  apply (H []).
Qed.

Lemma omap_length {A B : Type} (f : A -> option B) (l : list A) :
  (length (omap f l) <= length l)%nat.
Proof.
  induction l as [|x l IH]; cbn [omap list_omap]; [reflexivity|].
  destruct (f x); simpl; lia.
Qed.

Lemma str_or_nonempty a b : b <> "" -> str_or a b <> "".
Proof.
  intros Hb. unfold str_or. destruct a as [s|]; [|assumption].
  destruct (String.eqb s "") eqn:E; [assumption|]. apply String.eqb_neq. assumption.
Qed.

(** The live data are returned on every input, with a summary that is
    never empty.  After a failed call there are no sources; after a
    successful one there is one source for every chunk that has a [web],
    in the order of the chunks, each with a title that is not empty. *)
Theorem getLiveTrafficUpdates_returns queryContext :
  exists data,
    (getLiveTrafficUpdates generateContent now queryContext).2 = Returned data
    /\ summary data <> ""
    /\ lastUpdated data = now
    /\ (forall src, src ∈ sources data -> source_title src <> "")
    /\ (forall tr x,
          retryGeminiCall (generateContent queryContext) 4 2500 = (tr, Threw x) ->
          sources data = [])
    /\ (forall tr response chunks,
          retryGeminiCall (generateContent queryContext) 4 2500 = (tr, Returned response) ->
          groundingChunks response = Some chunks ->
          sources data = omap sourceOf chunks
          /\ (length (sources data) <= length chunks)%nat).
Proof.
  pose proof (retryGeminiCall_not_undefined (generateContent queryContext) 4 2500
                ltac:(lia)) as Hdef.
  unfold getLiveTrafficUpdates.
  destruct (retryGeminiCall (generateContent queryContext) 4 2500) as [tr [response|x]];
    cbn [snd] in *.
  - eexists. split; [reflexivity|]. cbn [summary lastUpdated sources].
    split; [apply str_or_nonempty; discriminate|]. split; [reflexivity|].
    split; [|split].
    + intros src Hsrc. destruct (groundingChunks response) as [chunks|]; [|inversion Hsrc].
      rewrite collectSources_omap in Hsrc.
      apply list_elem_of_omap in Hsrc as (chunk & _ & Hs).
      destruct (web chunk) as [w|]; [|discriminate]. injection Hs as <-.
      cbn [source_title]. apply str_or_nonempty. discriminate.
    + intros tr' x [= _ Hx].
    + intros tr' response' chunks [= _ <-] Hchunks. rewrite Hchunks, collectSources_omap.
      split; [reflexivity|]. apply omap_length.
  - destruct x as [|e]; [congruence|]. cbn [liveFallback].
    destruct (isRateLimit e); eexists; (split; [reflexivity|]); cbn [summary lastUpdated sources];
      (split; [discriminate|]); (split; [reflexivity|]);
      (split; [intros src Hsrc; inversion Hsrc|]);
      (split; [reflexivity|intros tr' response chunks [= _ Hr]]).
Qed.
End LiveTrafficFacts.

Lemma getLiveTrafficUpdates_returns_witness :
  exists data,
    (LiveTraffic.getLiveTrafficUpdates
       (fun _ _ => Resolved
          {| LiveTraffic.live_text := Some "No major live incidents reported.";
             LiveTraffic.groundingChunks := Some
               [ {| LiveTraffic.web := None |};
                 {| LiveTraffic.web := Some {| LiveTraffic.title := None;
                                               LiveTraffic.uri := Some "https://example.org" |} |} ] |})
       "12:00:00" "Traffic at Hohe Strasse in Cologne").2 = Returned data
    /\ LiveTraffic.sources data
       = [ {| LiveTraffic.source_title := "Source";
              LiveTraffic.source_uri := Some "https://example.org" |} ].
Proof.
  destruct (getLiveTrafficUpdates_returns
              (fun _ _ => Resolved
                 {| LiveTraffic.live_text := Some "No major live incidents reported.";
                    LiveTraffic.groundingChunks := Some
                      [ {| LiveTraffic.web := None |};
                        {| LiveTraffic.web := Some {| LiveTraffic.title := None;
                                                      LiveTraffic.uri := Some "https://example.org" |} |} ] |})
              "12:00:00" "Traffic at Hohe Strasse in Cologne")
    as (data & Heq & _ & _ & _ & _ & Hsrc).
  exists data. split; [exact Heq|].
  destruct (Hsrc _ _ _ eq_refl eq_refl) as [-> _]. reflexivity.
Defined.

Section AnalyzeMore.
Import Gemini.
Variable generateContent : StreetPrompt -> nat -> Outcome GenerateContentResponse.
Variable JSON_parse : string -> Outcome JValue.
Variable now : string.

Local Abbreviation analyze := (analyzeStreetConditions generateContent JSON_parse now).
Local Abbreviation call lat lng vehicleType osmData :=
  (retryGeminiCall (generateContent (streetPrompt lat lng vehicleType osmData)) 4 2500).

Ltac read_key := repeat (rewrite lookup_insert_ne by congruence); rewrite ?lookup_insert_eq.

(** What fails after a successful call ends in a fallback as well: a
    missing or empty text and a text that parses to [null] give the failed
    object, and an error of [JSON.parse] is classified by its message like
    an error of the call. *)
Theorem analyzeStreetConditions_after_call lat lng vehicleType osmData tr response :
  call lat lng vehicleType osmData = (tr, Returned response) ->
  (text response = None \/ text response = Some "" ->
     analyze lat lng vehicleType osmData = (tr, Returned (failedAnalysis now osmData)))
  /\ (forall txt, text response = Some txt -> txt <> "" ->
        (JSON_parse txt = Resolved JNull ->
           analyze lat lng vehicleType osmData = (tr, Returned (failedAnalysis now osmData)))
        /\ (forall e, JSON_parse txt = Rejected e ->
              analyze lat lng vehicleType osmData =
                (tr, Returned (if isRateLimit e then degradedAnalysis now osmData
                               else failedAnalysis now osmData)))).
Proof.
  intros Hcall. rewrite (analyze_call_returns _ _ _ _ _ _ _ _ _ Hcall). split.
  - intros [Ht | Ht]; unfold responseText; rewrite Ht; reflexivity.
  - intros txt Ht Hne. unfold responseText. rewrite Ht.
    apply String.eqb_neq in Hne. rewrite Hne. cbn [negb mbind Completion_bind]. split.
    + intros ->. reflexivity.
    + intros e ->. cbn [await mbind Completion_bind analysisFallback].
      destruct (isRateLimit e); reflexivity.
Qed.

(** The merge of a parsed object sets four keys and leaves every other
    key as the generator gave it: the four are always there in the
    result, and [lastUpdated] is the time of the call. *)
Theorem mergeAnalysis_frame m osmData :
  exists analysis,
    mergeAnalysis now (JObj m) osmData = Returned analysis
    /\ (forall k, k <> "streetWidth" -> k <> "lanes" -> k <> "congestionCurve" ->
                  k <> "lastUpdated" -> analysis !! k = m !! k)
    /\ is_Some (analysis !! "streetWidth") /\ is_Some (analysis !! "lanes")
    /\ is_Some (analysis !! "congestionCurve")
    /\ analysis !! "lastUpdated" = Some (JStr now).
Proof.
  rewrite merge_object. cbv zeta. eexists. split; [reflexivity|].
  split; [|repeat split].
  - intros k H1 H2 H3 H4. read_key. reflexivity.
  - read_key. eexists; reflexivity.
  - read_key. eexists; reflexivity.
  - read_key. eexists; reflexivity.
  - read_key. reflexivity.
Qed.
End AnalyzeMore.

Lemma analyzeStreetConditions_after_call_witness :
  Gemini.analyzeStreetConditions (Samples.answering "null") (Samples.parsesTo JNull)
    "12:00:00" 0%R 0%R Gemini.CAR None
  = ([Gemini.EvCall 0], Returned (Gemini.failedAnalysis "12:00:00" None)).
Proof.
  destruct (analyzeStreetConditions_after_call (Samples.answering "null")
              (Samples.parsesTo JNull) "12:00:00" 0%R 0%R Gemini.CAR None
              _ _ eq_refl) as [_ Hparsed].
  destruct (Hparsed "null" eq_refl ltac:(discriminate)) as [Hnull _].
  apply Hnull. reflexivity.
Defined.

(** ** The street data of OpenStreetMap *)

Section OsmFacts.
Import Stdlib.Strings.Ascii.
Import Routing Osm.
Variable fetch : Query -> Outcome Response.





(** *** The name of the geometry query *)

Lemma trimEnd_cons c s : is_white c = false -> trimEnd (String c s) = String c (trimEnd s).
Proof. intros Hc. cbn [trimEnd]. rewrite Hc. destruct (trimEnd s); reflexivity. Qed.

Lemma trimEnd_idem s : trimEnd (trimEnd s) = trimEnd s.
Proof.
  induction s as [|c s IH]; [reflexivity|]. cbn [trimEnd].
  destruct (trimEnd s) as [|c' r] eqn:Hr.
  - destruct (is_white c) eqn:Hc; [reflexivity|]. cbn [trimEnd]. rewrite Hc. reflexivity.
  - cbn [trimEnd] in *. rewrite IH. reflexivity.
Qed.

Lemma trimStart_head s :
  trimStart s = "" \/ exists c r, trimStart s = String c r /\ is_white c = false.
Proof.
  induction s as [|c s IH]; [left; reflexivity|]. cbn [trimStart].
  destruct (is_white c) eqn:Hc; [assumption|]. right. exists c, s. auto.
Qed.

Lemma trim_idem s : trim (trim s) = trim s.
Proof.
  unfold trim. destruct (trimStart_head s) as [-> | (c & r & -> & Hc)]; [reflexivity|].
  rewrite (trimEnd_cons _ _ Hc). cbn [trimStart]. rewrite Hc.
  rewrite <- (trimEnd_cons _ _ Hc). apply trimEnd_idem.
Qed.

Lemma beforeComma_cons c s :
  beforeComma (String c s) = String c s <-> c <> ","%char /\ beforeComma s = s.
Proof.
  cbn [beforeComma]. destruct (Ascii.eqb c ",") eqn:E.
  - apply Ascii.eqb_eq in E. split; [discriminate|]. intros [H _]. contradiction.
  - apply Ascii.eqb_neq in E. split.
    + intros [= H]. auto.
    + intros [_ ->]. reflexivity.
Qed.

Lemma beforeComma_idem s : beforeComma (beforeComma s) = beforeComma s.
Proof.
  induction s as [|c s IH]; [reflexivity|]. cbn [beforeComma].
  destruct (Ascii.eqb c ",") eqn:E; [reflexivity|]. cbn [beforeComma]. rewrite E, IH.
  reflexivity.
Qed.

Lemma trimStart_no_comma s : beforeComma s = s -> beforeComma (trimStart s) = trimStart s.
Proof.
  induction s as [|c s IH]; [reflexivity|]. intros H. cbn [trimStart].
  destruct (is_white c); [|assumption]. apply IH. apply beforeComma_cons in H. apply H.
Qed.

Lemma trimEnd_no_comma s : beforeComma s = s -> beforeComma (trimEnd s) = trimEnd s.
Proof.
  induction s as [|c s IH]; [reflexivity|]. intros H.
  apply beforeComma_cons in H as [Hc Hs]. specialize (IH Hs). cbn [trimEnd].
  destruct (trimEnd s) as [|c' r].
  - destruct (is_white c); [reflexivity|]. apply beforeComma_cons. auto.
  - apply beforeComma_cons. auto.
Qed.

(** The geometry of a street is asked for under the part of the name
    before its first comma, without white space at either end: the name of
    the one request made has no comma, is trimmed, and is the given name
    when that is such a name already. *)
Theorem getStreetGeometry_query streetName centerLat centerLng :
  exists cleanName,
    (getStreetGeometry fetch streetName centerLat centerLng).1
      = [EvPost (WaysNamed cleanName centerLat centerLng)]
    /\ beforeComma cleanName = cleanName
    /\ trim cleanName = cleanName
    /\ (beforeComma streetName = streetName -> trim streetName = streetName ->
        cleanName = streetName).
Proof.
  exists (trim (beforeComma streetName)). split; [reflexivity|]. split; [|split].
  - unfold trim. apply trimEnd_no_comma, trimStart_no_comma, beforeComma_idem.
  - apply trim_idem.
  - intros -> ->. reflexivity.
Qed.

Lemma collectSegments_omap els :
  collectSegments els =
    omap (fun element =>
            match el_geometry element with
            | Some geometry =>
              if String.eqb (el_type element) "way" then
                Some (map (fun pt => {| lat := pt.1; lng := pt.2 |}) geometry)
              else None
            | None => None
            end) els.
Proof.
  unfold collectSegments.
  match goal with
  | |- foldl ?step [] els = omap ?f els =>
    assert (forall acc, foldl step acc els = (acc ++ omap f els)%list) as H
  end.
  { induction els as [|el els IH]; intros acc; cbn [foldl omap list_omap].
    - rewrite app_nil_r. reflexivity.
    - rewrite IH. destruct (el_geometry el); [|reflexivity].
      destruct (String.eqb (el_type el) "way"); [rewrite <- app_assoc|]; reflexivity. }
  apply (H []).
Qed.

(** The segments of a street: none when the request fails, the response
    is not [ok], its body does not parse or has no elements; otherwise one
    path for every element that is a way with a geometry, in the order of
    the elements, each with as many points as the geometry, latitude and
    longitude taken from [lat] and [lon]. *)
Theorem getStreetGeometry_segments streetName centerLat centerLng :
  let query := WaysNamed (trim (beforeComma streetName)) centerLat centerLng in
  let segments := (getStreetGeometry fetch streetName centerLat centerLng).2 in
  ((forall response, fetch query = Resolved response -> ok response = false) ->
     segments = [])
  /\ (forall response data els,
        fetch query = Resolved response -> ok response = true ->
        json response = Resolved data -> elements data = Some els ->
        (length segments <= length els)%nat
        /\ forall path, path ∈ segments <->
             exists element geometry,
               element ∈ els /\ el_type element = "way"
               /\ el_geometry element = Some geometry
               /\ path = map (fun pt => {| lat := pt.1; lng := pt.2 |}) geometry).
Proof.
  cbv zeta. unfold getStreetGeometry. cbn [snd]. split.
  - intros Hfail. destruct (fetch _) as [response|]; [|reflexivity].
    rewrite (Hfail response eq_refl). reflexivity.
  - intros response data els -> -> -> ->. cbn [negb]. rewrite collectSegments_omap.
    split; [apply omap_length|].
    intros path. rewrite list_elem_of_omap. split.
    + intros (element & Hin & Hf).
      destruct (el_geometry element) as [geometry|] eqn:Hg; [|discriminate].
      destruct (String.eqb (el_type element) "way") eqn:Ht; [|discriminate].
      injection Hf as <-. apply String.eqb_eq in Ht.
      exists element, geometry. auto.
    + intros (element & geometry & Hin & Ht & Hg & ->).
      exists element. split; [assumption|]. rewrite Hg.
      apply String.eqb_eq in Ht. rewrite Ht. reflexivity.
Qed.
End OsmFacts.


Lemma getStreetGeometry_segments_witness :
  (Osm.getStreetGeometry
     (fun _ => Resolved {| Osm.ok := false; Osm.json := Rejected Samples.networkError |})
     "Hohe Strasse, Innenstadt" 0%R 0%R).2 = [].
Proof.
  apply (getStreetGeometry_segments
           (fun _ => Resolved {| Osm.ok := false; Osm.json := Rejected Samples.networkError |})
           "Hohe Strasse, Innenstadt" 0%R 0%R).
  intros response [= <-]. reflexivity.
Defined.

(** The query name of some street names. *)
Example getStreetGeometry_cleanName :
  (Osm.getStreetGeometry (fun _ => Rejected Samples.networkError)
     "  Hohe Strasse , Innenstadt, Koeln" 1%R 2%R).1
  = [Osm.EvPost (Osm.WaysNamed "Hohe Strasse" 1 2)].
Proof. reflexivity. Qed.

(** ** The session with its awaits *)

Section SessionMore.
Import Routing App Session.

(** A selection in the session is the transition of
    [handleLocationSelect] whose explore branch is the part up to the
    first [await]. *)
Lemma selectOn_handler now captured coords s :
  selectOn now captured coords s
  = handleLocationSelect (fun s0 c => exploreBegin now c s0) now captured coords s.
Proof. unfold selectOn, handleLocationSelect. destruct (mode captured); reflexivity. Qed.

Lemma clicks_reachable n coords s :
  reachable s -> reachable (Scenarios.clicks n coords s).
Proof.
  intros Hs. induction n as [|n IH]; [assumption|].
  cbn [Scenarios.clicks]. cbv zeta.
  apply (reachable_step (Scenarios.clicks n coords s)); [assumption|apply step_select].
Qed.

Lemma step_routePoints s s' :
  step s s' ->
  routePoints s' = routePoints s \/ (length (routePoints s') <= 10)%nat.
Proof.
  intros Hstep. destruct Hstep.
  - unfold selectOn. destruct (mode s).
    + left. destruct s; reflexivity.
    + destruct (10 <=? length (routePoints s))%nat eqn:Hcap.
      * left. destruct s; reflexivity.
      * right. apply Nat.leb_gt in Hcap. destruct s; simpl in *.
        rewrite length_app. simpl. lia.
  - left. unfold exploreCommit.
    destruct analysisResult as [a|]; [destruct liveResult as [l|];
      [destruct (checkName osmDetails a)|]|]; destruct s; reflexivity.
  - left. destruct s; reflexivity.
  - left. destruct s; reflexivity.
  - unfold searchContinue. destruct found as [coords|]; [|left; destruct s; reflexivity].
    unfold selectOn. destruct (mode captured).
    + left. destruct s; reflexivity.
    + destruct (10 <=? length (routePoints captured))%nat eqn:Hcap.
      * left. destruct s; reflexivity.
      * right. apply Nat.leb_gt in Hcap. destruct s; simpl in *.
        rewrite length_app. simpl. lia.
  - left. unfold calcBegin. destruct (length (routePoints s) <? 2)%nat; destruct s; reflexivity.
  - left. unfold calcRouted. destruct routeData; destruct s; reflexivity.
  - left. unfold calcAnalysed.
    destruct analysisResult; [destruct liveResult|]; destruct s; reflexivity.
  - right. destruct s; simpl. lia.
  - destruct newMode; [right; destruct s; simpl; lia|left; destruct s; reflexivity].
  - left. destruct s; reflexivity.
  - left. destruct s; reflexivity.
Qed.

(** In every state the session can reach there are at most 10 waypoints,
    whatever the order in which clicks, searches, mode switches and the
    continuations of pending requests happen, and from whatever render the
    continuation of a search stems. *)
Theorem waypoints_capped s :
  reachable s -> (length (routePoints s) <= 10)%nat.
Proof.
  intros Hreach. induction Hreach as [|s s' _ IH Hstep]; [simpl; lia|].
  destruct (step_routePoints _ _ Hstep) as [-> | H]; assumption.
Qed.

(** The route is asked for only with at least 2 waypoints: below that the
    handler changes nothing and asks for nothing, and otherwise it asks
    for the route of the waypoints, a call that gets past the check of
    [calculateRoute] and issues its request. *)
Theorem calcBegin_guard s :
  ((length (routePoints s) < 2)%nat -> calcBegin s = (s, None))
  /\ (forall s1 points,
        calcBegin s = (s1, Some points) ->
        points = routePoints s /\ (2 <= length points)%nat
        /\ loading s1 = true /\ error s1 = None
        /\ forall fetch,
             (calculateRoute fetch points).1
               = [EvFetch (map (fun p => (lng p, lat p)) points)]).
Proof.
  unfold calcBegin. destruct (length (routePoints s) <? 2)%nat eqn:Hlen.
  - split; [reflexivity|]. intros s1 points [= _ H].
  - apply Nat.ltb_ge in Hlen. split; [lia|].
    intros s1 points [= <- <-]. repeat split; try assumption.
    intros fetch. unfold calculateRoute.
    assert ((length (routePoints s) <? 2)%nat = false) as -> by (apply Nat.ltb_ge; lia).
    reflexivity.
Qed.

(** A route computation that fails, run without another action in
    between: the message is shown and loading ends; the waypoints and the
    polyline and street names of the previous route stay as they were, and
    the previous route analysis and live data are gone. *)
Theorem route_failure_keeps_route fetch s s1 points x :
  calcBegin s = (s1, Some points) ->
  (calculateRoute fetch points).2 = Threw x ->
  let s2 := calcRouted (calculateRoute fetch points).2 s1 in
  error s2 = Some "Failed to calculate or analyze route."
  /\ loading s2 = false
  /\ routePoints s2 = routePoints s
  /\ routeCoordinates s2 = routeCoordinates s
  /\ routeStreetNames s2 = routeStreetNames s
  /\ markers s2 = markers s
  /\ routeAnalysis s2 = None /\ liveTraffic s2 = None.
Proof.
  unfold calcBegin. destruct (length (routePoints s) <? 2)%nat; [discriminate|].
  intros [= <- <-] ->. destruct s; repeat split.
Qed.

(** A search that resumes with a location, submitted in a render in
    route mode: the callback it runs is the one of that render, so the cap
    is checked on the waypoints of that render and the new waypoints are
    those of that render with the location at the end, whatever the
    waypoints are by then; the marker is added to the markers there are.
    No phase of the handler after the lookup resets [loading], which the
    handler set before it.  A search that finds nothing shows its message
    and ends loading. *)
Theorem search_in_route_mode now coords captured s :
  mode captured = route ->
  let s' := searchContinue now captured (Some coords) s in
  loading (searchBegin captured) = true
  /\ loading s' = loading s
  /\ ((length (routePoints captured) < 10)%nat ->
        routePoints s' = (routePoints captured ++ [coords])%list
        /\ length (markers s') = S (length (markers s))
        /\ error s' = None)
  /\ ((10 <= length (routePoints captured))%nat ->
        routePoints s' = routePoints s /\ markers s' = markers s
        /\ error s' = Some "Max 10 waypoints allowed.")
  /\ loading (searchContinue now captured None s) = false
  /\ error (searchContinue now captured None s) = Some "Location not found in Cologne.".
Proof.
  intros Hmode. cbv zeta. unfold searchContinue, selectOn. rewrite Hmode.
  destruct (10 <=? length (routePoints captured))%nat eqn:Hcap.
  - apply Nat.leb_le in Hcap. destruct s; simpl in *. repeat split; intros; try lia.
  - apply Nat.leb_gt in Hcap. destruct s; simpl in *.
    repeat split; intros; try lia. rewrite length_app. simpl. lia.
Qed.

(** A selection in explore mode, run to its end without another action
    in between: loading has ended, the one marker is the selected
    location, the waypoints and the mode are as before; the analysis is in
    the state when both services returned, and the failure message is
    shown exactly when one of them threw or the street name of the
    analysis is a value without [includes]. *)
Theorem explore_selection now coords osmDetails analysisResult liveResult s :
  mode s = explore ->
  let s' := (exploreCommit osmDetails analysisResult liveResult
               (selectOn now s coords s)).1 in
  loading s' = false
  /\ (exists m, markers s' = [m] /\ position m = coords /\ type m = user_selected)
  /\ routePoints s' = routePoints s /\ mode s' = explore
  /\ routeAnalysis s' = None
  /\ (forall a l, analysisResult = Returned a -> liveResult = Returned l ->
        analysis s' = Some a)
  /\ (error s' = Some "Failed to analyze location." <->
      ((exists x, analysisResult = Threw x) \/ (exists x, liveResult = Threw x)
       \/ exists a, analysisResult = Returned a /\ checkName osmDetails a = NameTypeError))
  /\ (error s' = None \/ error s' = Some "Failed to analyze location.").
Proof.
  intros Hmode. cbv zeta. unfold selectOn. rewrite Hmode. unfold exploreCommit.
  destruct analysisResult as [a|x]; [destruct liveResult as [l|x];
    [destruct (checkName osmDetails a) eqn:Hcheck|]|];
    destruct s; simpl in *; subst;
    (repeat split; try (eexists; repeat split; reflexivity); try reflexivity;
     try (intros; congruence); try discriminate; try (left; reflexivity);
     try (right; reflexivity)).
  all: try (intros [(x' & Hx) | [(x' & Hx) | (a' & Ha & Hc)]]; congruence).
  all: try (intros _; eauto 6).
Qed.
End SessionMore.

Lemma waypoints_capped_witness :
  length (App.routePoints Scenarios.tenStops) = 10%nat
  /\ (length (App.routePoints
                (Session.searchContinue "1700000000002" Scenarios.nineStops
                   (Some Samples.heumarkt) Scenarios.tenStops)) <= 10)%nat.
Proof.
  split.
  - destruct tenStops_state as (_ & -> & _). destruct nineStops_state as (_ & -> & _).
    reflexivity.
  - apply waypoints_capped.
    apply (Session.reachable_step Scenarios.tenStops); [|apply Session.step_search_continue].
    unfold Scenarios.tenStops.
    apply (Session.reachable_step Scenarios.searching); [|apply Session.step_select].
    unfold Scenarios.searching.
    apply (Session.reachable_step Scenarios.nineStops); [|apply Session.step_search_begin].
    unfold Scenarios.nineStops. apply clicks_reachable.
    apply (Session.reachable_step Session.initial);
      [apply Session.reachable_initial|apply Session.step_mode].
Defined.

Lemma route_failure_keeps_route_witness :
  App.routeCoordinates
    (Session.calcRouted
       (Routing.calculateRoute Samples.noRoute (App.routePoints Samples.afterRoute)).2
       (Session.calcBegin Samples.afterRoute).1)
  = [(50, 7); (51, 7)]%R.
Proof.
  apply (route_failure_keeps_route Samples.noRoute Samples.afterRoute _ _
           (ThrowError (Error "No route found."))); reflexivity.
Defined.

Lemma search_in_route_mode_witness :
  App.routePoints
    (Session.searchContinue "1700000000002" Scenarios.nineStops (Some Samples.heumarkt)
       Scenarios.tenStops)
  = (App.routePoints Scenarios.nineStops ++ [Samples.heumarkt])%list
  /\ length (App.markers
               (Session.searchContinue "1700000000002" Scenarios.nineStops
                  (Some Samples.heumarkt) Scenarios.tenStops))
     = S (length (App.markers Scenarios.tenStops))
  /\ App.error
       (Session.searchContinue "1700000000002" Scenarios.nineStops (Some Samples.heumarkt)
          Scenarios.tenStops) = None.
Proof.
  destruct (search_in_route_mode "1700000000002" Samples.heumarkt Scenarios.nineStops
              Scenarios.tenStops (proj1 nineStops_state)) as (_ & _ & Hfree & _).
  apply Hfree. destruct nineStops_state as (_ & -> & _). rewrite length_replicate. lia.
Defined.

Lemma explore_selection_witness :
  App.loading
    (Session.exploreCommit None (Returned (Gemini.failedAnalysis "12:00:00" None))
       (Threw (ThrowError Samples.networkError))
       (Session.selectOn "1700000000000" Session.initial Samples.domplatz Session.initial)).1
  = false.
Proof.
  apply (explore_selection "1700000000000" Samples.domplatz None
           (Returned (Gemini.failedAnalysis "12:00:00" None))
           (Threw (ThrowError Samples.networkError)) Session.initial).
  reflexivity.
Defined.

(** ** The weather *)

Section WeatherFacts.
Import Stdlib.Strings.Ascii.
Import Gemini Osm Weather Backoff.

(** A response in the format the prompt asks for. *)
Example parseWeather_formatted :
  Weather.parseWeather
    ("TEMP: 15 C" ++ String "010"%char ("Cond:   Light rain " ++ String "010"
       ("IMPACT: Wet roads, longer braking distances." ++ String "010"%char "SEVERE: yes")))
  = {| Weather.temp := "15 C"; Weather.condition := "Light rain";
       Weather.impact := "Wet roads, longer braking distances.";
       Weather.isSevere := true |}.
Proof. reflexivity. Qed.

(** A value left empty takes the next line. *)
Example parseWeather_empty_value :
  Weather.temp (Weather.parseWeather ("TEMP:" ++ String "010"%char "COND: Rainy")) = "COND: Rainy".
Proof. reflexivity. Qed.

Lemma line_idem s : line (line s) = line s.
Proof.
  induction s as [|c s IH]; [reflexivity|]. cbn [line].
  destruct (is_line_terminator c) eqn:E; [reflexivity|]. cbn [line]. rewrite E, IH.
  reflexivity.
Qed.

Lemma line_cons c s :
  line (String c s) = String c s <-> is_line_terminator c = false /\ line s = s.
Proof.
  cbn [line]. destruct (is_line_terminator c).
  - split; [discriminate|]. intros [H _]. discriminate.
  - split; [intros [= H]; auto|]. intros [_ ->]. reflexivity.
Qed.

Lemma trimStart_line s : line s = s -> line (trimStart s) = trimStart s.
Proof.
  induction s as [|c s IH]; [reflexivity|]. intros H. cbn [trimStart].
  destruct (is_white c); [|assumption]. apply IH. apply line_cons in H. apply H.
Qed.

Lemma trimEnd_line s : line s = s -> line (trimEnd s) = trimEnd s.
Proof.
  induction s as [|c s IH]; [reflexivity|]. intros H.
  apply line_cons in H as [Hc Hs]. specialize (IH Hs). cbn [trimEnd].
  destruct (trimEnd s) as [|c' r].
  - destruct (is_white c); [reflexivity|]. apply line_cons. auto.
  - apply line_cons. auto.
Qed.

Lemma trim_line s : line s = s -> line (trim s) = trim s.
Proof. intros H. unfold trim. apply trimEnd_line, trimStart_line, H. Qed.

(** A field of the parse: a captured group trimmed, or a default. *)
Lemma field_clean label text d :
  trim d = d -> line d = d ->
  let v := match capture label text with Some v => trim v | None => d end in
  trim v = v /\ line v = v.
Proof.
  intros Hd1 Hd2. cbv zeta. unfold capture.
  destruct (after_label label text) as [rest|]; [|auto].
  split; [apply trim_idem|apply trim_line, line_idem].
Qed.

(** Every text field of a parsed weather is trimmed and has no line
    terminator; a field whose label is not in the text, in any case of
    the letters, has its default, and without the label [SEVERE:] the
    weather is not severe. *)
Theorem parseWeather_fields text :
  let w := parseWeather text in
  (trim (temp w) = temp w /\ line (temp w) = temp w)
  /\ (trim (condition w) = condition w /\ line (condition w) = condition w)
  /\ (trim (impact w) = impact w /\ line (impact w) = impact w)
  /\ (after_label "TEMP:" text = None -> temp w = "N/A")
  /\ (after_label "COND:" text = None -> condition w = "Unknown")
  /\ (after_label "IMPACT:" text = None -> impact w = "Weather data unavailable.")
  /\ (after_label "SEVERE:" text = None -> isSevere w = false).
Proof.
  cbv zeta. unfold parseWeather. cbn [temp condition impact isSevere].
  split; [apply field_clean; reflexivity|].
  split; [apply field_clean; reflexivity|].
  split; [apply field_clean; reflexivity|].
  unfold capture. repeat split; intros ->; reflexivity.
Qed.

(** *** A text in the format of the prompt *)

Lemma append_String c s x : String c s ++ x = String c (s ++ x).
Proof. reflexivity. Qed.

Lemma append_empty x : "" ++ x = x.
Proof. reflexivity. Qed.

Lemma starts_ci_app_None label : forall pre sep s,
  label_has label sep = false ->
  starts_ci label pre = None ->
  starts_ci label (pre ++ String sep s) = None.
Proof.
  induction label as [|a label IH]; intros pre sep s Hsep Hnone; [discriminate|].
  cbn [label_has] in Hsep. apply orb_false_elim in Hsep as [Ha Hrest].
  destruct pre as [|b pre];
    rewrite ?append_String, ?append_empty; cbn [starts_ci] in *.
  - rewrite Ha. reflexivity.
  - destruct (Ascii.eqb (fold_case a) (fold_case b)); [|reflexivity].
    apply IH; assumption.
Qed.

Lemma starts_ci_sep label sep s :
  label <> "" -> label_has label sep = false -> starts_ci label (String sep s) = None.
Proof.
  intros Hne Hsep. destruct label as [|a label]; [contradiction|].
  cbn [label_has] in Hsep. apply orb_false_elim in Hsep as [Ha _].
  cbn [starts_ci]. rewrite Ha. reflexivity.
Qed.

(** A stretch of text that has no occurrence of the label and ends before
    a code unit that is none of the label is passed over. *)
Lemma after_label_skip label pre : forall sep s,
  label <> "" ->
  label_has label sep = false ->
  after_label label pre = None ->
  after_label label (pre ++ String sep s) = after_label label s.
Proof.
  induction pre as [|b pre IH]; intros sep s Hne Hsep Hnone.
  - rewrite append_empty. cbn [after_label]. rewrite (starts_ci_sep _ _ _ Hne Hsep). reflexivity.
  - cbn [after_label] in Hnone.
    destruct (starts_ci label (String b pre)) eqn:Hst; [discriminate|].
    change (String b pre ++ String sep s) with (String b (pre ++ String sep s)).
    cbn [after_label].
    change (String b (pre ++ String sep s)) with (String b pre ++ String sep s).
    rewrite (starts_ci_app_None _ _ _ _ Hsep Hst). apply IH; assumption.
Qed.

Lemma trim_head s :
  trim s = "" \/ exists c r, trim s = String c r /\ is_white c = false.
Proof.
  unfold trim. destruct (trimStart_head s) as [-> | (c & r & -> & Hc)]; [left; reflexivity|].
  right. rewrite (trimEnd_cons _ _ Hc). eauto.
Qed.

Lemma trimStart_clean v x : v <> "" -> trim v = v -> trimStart (v ++ x) = v ++ x.
Proof.
  intros Hne Htrim. destruct (trim_head v) as [H | (c & r & H & Hc)];
    rewrite Htrim in H; [contradiction|].
  subst v. rewrite append_String. cbn [trimStart]. rewrite Hc. reflexivity.
Qed.

Lemma line_app_nl v x : line v = v -> line (v ++ String "010"%char x) = v.
Proof.
  induction v as [|c v IH]; intros H; [reflexivity|].
  apply line_cons in H as [Hc Hv]. rewrite append_String. cbn [line].
  rewrite Hc, (IH Hv). reflexivity.
Qed.

Lemma append_empty_r v : v ++ "" = v.
Proof.
  induction v as [|c v IH]; [reflexivity|]. rewrite append_String, IH. reflexivity.
Qed.

(** The group behind a label that is followed by one space, a value and
    the end of the line is the value. *)
Lemma group_value v x :
  v <> "" -> trim v = v -> line v = v ->
  line (trimStart (String " "%char (v ++ String "010"%char x))) = v.
Proof.
  intros Hne Ht Hl. cbn [trimStart]. change (is_white " "%char) with true. cbv iota.
  rewrite (trimStart_clean _ _ Hne Ht). apply line_app_nl, Hl.
Qed.

(** A text of the four lines [TEMP: t], [COND: c], [IMPACT: i] and
    [SEVERE: sv] parses to its three values and to whether [sv] has [YES]
    in it in capitals, when the values are not empty, are trimmed, are
    single lines and have none of the labels of the later lines in
    them. *)
Theorem parseWeather_round_trip t c i sv :
  (t <> "" /\ trim t = t /\ line t = t) ->
  (c <> "" /\ trim c = c /\ line c = c) ->
  (i <> "" /\ trim i = i /\ line i = i) ->
  (sv <> "" /\ trim sv = sv /\ line sv = sv) ->
  after_label "COND:" t = None ->
  after_label "IMPACT:" t = None -> after_label "IMPACT:" c = None ->
  after_label "SEVERE:" t = None -> after_label "SEVERE:" c = None ->
  after_label "SEVERE:" i = None ->
  parseWeather
    ("TEMP: " ++ t ++ String "010"%char ("COND: " ++ c ++ String "010"
       ("IMPACT: " ++ i ++ String "010"%char ("SEVERE: " ++ sv))))
  = {| temp := t; condition := c; impact := i;
       isSevere := includes (toUpperCase sv) "YES" |}.
Proof.
  intros (Ht0 & Ht1 & Ht2) (Hc0 & Hc1 & Hc2) (Hi0 & Hi1 & Hi2) (Hs0 & Hs1 & Hs2)
         Hct Hit Hic Hst Hsc Hsi.
  set (L4 := "SEVERE: " ++ sv).
  set (L3 := "IMPACT: " ++ i ++ String "010"%char L4).
  set (L2 := "COND: " ++ c ++ String "010"%char L3).
  assert (forall label x, label <> "" -> label_has label " "%char = false ->
            label_has label "010"%char = false ->
            after_label label "TEMP:" = None -> after_label label t = None ->
            after_label label ("TEMP: " ++ t ++ String "010"%char x) = after_label label x) as Hskip1.
  { intros label x Hne Hsp Hnl Hfix Hval.
    change ("TEMP: " ++ t ++ String "010"%char x) with ("TEMP:" ++ String " "%char (t ++ String "010"%char x)).
    rewrite (after_label_skip _ _ _ _ Hne Hsp Hfix).
    apply after_label_skip; assumption. }
  assert (forall label x, label <> "" -> label_has label " "%char = false ->
            label_has label "010"%char = false ->
            after_label label "COND:" = None -> after_label label c = None ->
            after_label label ("COND: " ++ c ++ String "010"%char x) = after_label label x) as Hskip2.
  { intros label x Hne Hsp Hnl Hfix Hval.
    change ("COND: " ++ c ++ String "010"%char x) with ("COND:" ++ String " "%char (c ++ String "010"%char x)).
    rewrite (after_label_skip _ _ _ _ Hne Hsp Hfix).
    apply after_label_skip; assumption. }
  assert (forall label x, label <> "" -> label_has label " "%char = false ->
            label_has label "010"%char = false ->
            after_label label "IMPACT:" = None -> after_label label i = None ->
            after_label label ("IMPACT: " ++ i ++ String "010"%char x) = after_label label x) as Hskip3.
  { intros label x Hne Hsp Hnl Hfix Hval.
    change ("IMPACT: " ++ i ++ String "010"%char x)
      with ("IMPACT:" ++ String " "%char (i ++ String "010"%char x)).
    rewrite (after_label_skip _ _ _ _ Hne Hsp Hfix).
    apply after_label_skip; assumption. }
  assert (capture "TEMP:" ("TEMP: " ++ t ++ String "010"%char L2) = Some t) as Htemp.
  { unfold capture.
    change (after_label "TEMP:" ("TEMP: " ++ t ++ String "010"%char L2))
      with (Some (String " "%char (t ++ String "010"%char L2))).
    cbv beta iota. rewrite group_value by assumption. reflexivity. }
  assert (capture "COND:" ("TEMP: " ++ t ++ String "010"%char L2) = Some c) as Hcond.
  { unfold capture. rewrite Hskip1 by (try discriminate; try reflexivity; assumption).
    unfold L2.
    change (after_label "COND:" ("COND: " ++ c ++ String "010"%char L3))
      with (Some (String " "%char (c ++ String "010"%char L3))).
    cbv beta iota. rewrite group_value by assumption. reflexivity. }
  assert (capture "IMPACT:" ("TEMP: " ++ t ++ String "010"%char L2) = Some i) as Himpact.
  { unfold capture. rewrite Hskip1 by (try discriminate; try reflexivity; assumption).
    unfold L2. rewrite Hskip2 by (try discriminate; try reflexivity; assumption).
    unfold L3.
    change (after_label "IMPACT:" ("IMPACT: " ++ i ++ String "010"%char L4))
      with (Some (String " "%char (i ++ String "010"%char L4))).
    cbv beta iota. rewrite group_value by assumption. reflexivity. }
  assert (capture "SEVERE:" ("TEMP: " ++ t ++ String "010"%char L2) = Some sv) as Hsevere.
  { unfold capture. rewrite Hskip1 by (try discriminate; try reflexivity; assumption).
    unfold L2. rewrite Hskip2 by (try discriminate; try reflexivity; assumption).
    unfold L3. rewrite Hskip3 by (try discriminate; try reflexivity; assumption).
    unfold L4.
    change (after_label "SEVERE:" ("SEVERE: " ++ sv)) with (Some (String " "%char sv)).
    cbv beta iota. cbn [trimStart]. change (is_white " "%char) with true. cbv iota.
    pose proof (trimStart_clean sv "" Hs0 Hs1) as Hsv. rewrite append_empty_r in Hsv.
    rewrite Hsv, Hs2. reflexivity. }
  unfold parseWeather. rewrite Htemp, Hcond, Himpact, Hsevere, Ht1, Hc1, Hi1, Hs1.
  reflexivity.
Qed.

Variable generateContent : nat -> Outcome GenerateContentResponse.

(** The weather is returned on every input, after at most 3 calls and at
    most 6000 ms of waiting; when the call fails, with a rate limit or
    otherwise, it is the snapshot [Unavailable], which is not severe. *)
Theorem getWeatherLogistics_returns :
  exists w,
    (getWeatherLogistics generateContent).2 = Returned w
    /\ (calls (getWeatherLogistics generateContent).1 <= 3)%nat
    /\ 0 <= waited (getWeatherLogistics generateContent).1 <= 6000
    /\ (forall tr x,
          retryGeminiCall generateContent 2 2000 = (tr, Threw x) -> w = unavailable)
    /\ (forall tr response,
          retryGeminiCall generateContent 2 2000 = (tr, Returned response) ->
          w = parseWeather (default "" (text response))).
Proof.
  pose proof (retryGeminiCall_not_undefined generateContent 2 2000 ltac:(lia)) as Hdef.
  pose proof (retry_loop_calls generateContent 2 2000 3 0 ThrowUndefined) as Hcalls.
  pose proof (retry_loop_waited generateContent 2 2000 3 0 ThrowUndefined
                ltac:(lia) ltac:(lia)) as Hwait.
  unfold getWeatherLogistics.
  change (retryGeminiCall generateContent 2 2000)
    with (retry_loop generateContent 2 2000 3 0 ThrowUndefined) in *.
  destruct (retry_loop generateContent 2 2000 3 0 ThrowUndefined) as [tr [response|x]];
    cbn [fst snd] in *.
  - eexists. split; [reflexivity|]. split; [assumption|]. split; [exact Hwait|].
    split; [intros tr' x [= _ H]|intros tr' response' [= _ <-]; reflexivity].
  - destruct x as [|e]; [congruence|]. eexists. split; [reflexivity|].
    split; [assumption|]. split; [exact Hwait|].
    split; [reflexivity|intros tr' response [= _ H]].
Qed.
End WeatherFacts.

Section WeatherSamples.
Import Stdlib.Strings.Ascii.

Lemma parseWeather_round_trip_witness :
  Weather.parseWeather
    ("TEMP: " ++ "15 C" ++ String "010"%char ("COND: " ++ "Light rain" ++ String "010"
       ("IMPACT: " ++ "Wet roads." ++ String "010"%char ("SEVERE: " ++ "NO"))))
  = {| Weather.temp := "15 C"; Weather.condition := "Light rain";
       Weather.impact := "Wet roads."; Weather.isSevere := false |}.
Proof.
  apply (parseWeather_round_trip "15 C" "Light rain" "Wet roads." "NO");
    try reflexivity; repeat split; try reflexivity; discriminate.
Defined.
End WeatherSamples.
